(** * Bible reading planner: the partitioner and the plan renderer

    A shallow embedding of [utils/utils.py] ([split]) and of the plan
    generation of [utils/generator.py] ([get_day_reading_text],
    [generate_plan]), with the properties of the reading-plan specification
    stated and proved over it.

    Python integers are unbounded, so they are modelled by [Z]; [//] and [%]
    are floor division and the modulus with the sign of the divisor, which
    is what [Z.div] and [Z.modulo] compute.  Exceptions are modelled by an
    error result.  The [while] loops and the recursion of the source are
    modelled with an explicit bound on the number of iterations (fuel); the
    top-level definitions supply a bound that is proved sufficient. *)

From Stdlib Require Import ZArith List String Ascii Bool Lia DecimalString.
From Stdlib Require Import Relations.
Import ListNotations.

#[local] Open Scope string_scope.
#[local] Open Scope list_scope.
#[local] Open Scope Z_scope.

(** ** Python primitives *)

Module Py.

Inductive exn : Set :=
| ValueError
| ZeroDivisionError
| IndexError.

(** The outcome of running a piece of code: a value, a raised exception,
    or the exhaustion of the iteration bound of the model. *)
Inductive result (A : Type) : Type :=
| Ok (a : A)
| Raise (e : exn)
| OutOfFuel.

Arguments Ok {A} a.
Arguments Raise {A} e.
Arguments OutOfFuel {A}.

Definition bind {A B : Type} (m : result A) (k : A -> result B) : result B :=
  match m with
  | Ok a => k a
  | Raise e => Raise e
  | OutOfFuel => OutOfFuel
  end.

(** [x // n] *)
Definition floordiv (x n : Z) : result Z :=
  if n =? 0 then Raise ZeroDivisionError else Ok (x / n).

(** [x % n] *)
Definition mod_ (x n : Z) : result Z :=
  if n =? 0 then Raise ZeroDivisionError else Ok (x mod n).

(** [int(a / b)]: true division followed by truncation towards zero.  The
    source only divides a number by one of its divisors, where the float
    quotient is exact as long as it stays below 2^53; the model takes the
    exact quotient. *)
Definition int_truediv (a b : Z) : result Z :=
  if b =? 0 then Raise ZeroDivisionError else Ok (Z.quot a b).

(** [math.gcd] *)
Definition gcd (a b : Z) : Z := Z.gcd a b.

(** [l[i]], with Python's negative indices counting from the end. *)
Definition index {A : Type} (l : list A) (i : Z) : result A :=
  let len := Z.of_nat (List.length l) in
  let j := if i <? 0 then len + i else i in
  if (0 <=? j) && (j <? len) then
    match nth_error l (Z.to_nat j) with
    | Some a => Ok a
    | None => Raise IndexError
    end
  else Raise IndexError.

(** [for _ in range(n): s = body(s)] *)
Definition for_range {S : Type} (n : Z) (body : S -> S) (s : S) : S :=
  Nat.iter (Z.to_nat n) body s.

(** [str(z)], which is also what an f-string does with an integer. *)
Definition str (z : Z) : string := NilZero.string_of_int (Z.to_int z).

(** [range(n)] *)
Definition range (n : Z) : list Z := List.map Z.of_nat (seq 0 (Z.to_nat n)).

(** [sum(l)] *)
Definition sum (l : list Z) : Z := fold_right Z.add 0 l.

End Py.

Import Py.

Notation "x <- m ;; k" := (Py.bind m (fun x => k))
  (at level 61, m at next level, right associativity).
Notation "' pat <- m ;; k" := (Py.bind m (fun x => match x with pat => k end))
  (at level 61, pat pattern, m at next level, right associativity).

(** ** utils/utils.py *)

(** One pass of the body of the [while] loop of [split]: the parts of one
    block are appended to [out]. *)
Definition split_pass (hi lo pp : Z) (out : list Z) : list Z :=
  if hi >? lo then
    let out := for_range lo (fun o => o ++ [pp; pp + 1]) out in
    for_range (hi - lo) (fun o => o ++ [pp + 1]) out
  else
    let out := for_range hi (fun o => o ++ [pp; pp + 1]) out in
    for_range (lo - hi) (fun o => o ++ [pp]) out.

(** [while i < n: ...; i += lo + hi] *)
Fixpoint split_while (fuel : nat) (n hi lo pp i : Z) (out : list Z)
  : result (list Z) :=
  if i <? n then
    match fuel with
    | O => OutOfFuel
    | S fuel' =>
        split_while fuel' n hi lo pp (i + (lo + hi)) (split_pass hi lo pp out)
    end
  else Ok out.

Definition split_fuel (fuel : nat) (x n : Z) : result (list Z) :=
  if x <? n then Raise ValueError
  else
    r <- mod_ x n ;;
    if r =? 0 then
      q <- floordiv x n ;;
      Ok (for_range n (fun o => o ++ [q]) [])
    else
      let zp := n - r in
      pp <- floordiv x n ;;
      let high := n - zp in
      let cd := if high >? zp then gcd high zp else gcd zp high in
      hi <- int_truediv high cd ;;
      lo <- int_truediv zp cd ;;
      split_while fuel n hi lo pp 0 [].

(** Every pass of the loop adds at least one to [i] when the loop is entered
    at all, so [n] passes are always enough (see [split_fuel_enough]). *)
Definition split (x n : Z) : result (list Z) :=
  split_fuel (Z.to_nat n) x n.


(** ** utils/generator.py *)

(** An element of [meta]: the dictionary built by [request_metadata], with
    the keys ["name"], ["chapters"] and ["verses"]. *)
Record book : Set := Book { name : string; chapters : Z; verses : Z }.

(** What the plan needs of the start date: [curr_day + timedelta(days=1)]
    and [curr_day.strftime("%m/%d/%Y")].  The range limit of Python's dates
    (year 9999) is outside the model. *)
Class DateLike (date : Type) : Type := {
  add_one_day : date -> date;
  strftime : date -> string
}.

(** String concatenation, [+] and [+=] on Python strings. *)
Infix "^^" := String.append (at level 60, right associativity).

Fixpoint get_day_reading_text_fuel (fuel : nat) (meta : list book)
    (b curr_chapter day : Z) : result string :=
  match fuel with
  | O => OutOfFuel
  | S fuel' =>
      curr_book <- index meta b ;;
      let day_readings := "" in
      if curr_chapter + day - 1 <=? chapters curr_book then
        let day_readings := day_readings ^^ name curr_book ^^ " " in
        if negb (day =? 1) then
          Ok (day_readings ^^ str curr_chapter ^^ "-" ^^ str (curr_chapter + day - 1))
        else
          Ok (day_readings ^^ str curr_chapter)
      else if curr_chapter + day - 1 >? chapters curr_book then
        let day_readings := day_readings ^^ name curr_book ^^ " " in
        let day_readings :=
          if negb (curr_chapter =? chapters curr_book) then
            day_readings ^^ str curr_chapter ^^ "-" ^^ str (chapters curr_book) ^^ "; "
          else
            day_readings ^^ str curr_chapter ^^ "; " in
        rest <- get_day_reading_text_fuel fuel' meta (b + 1) 1
                  (day - (chapters curr_book - curr_chapter) - 1) ;;
        Ok (day_readings ^^ rest)
      else Ok day_readings
  end.

(** Every activation looks [meta[b]] up and the next one is at [b + 1], so
    the depth of the recursion is at most [len(meta) - b + 1] (see
    [text_fuel_total]); the same bound serves the cursor loop of
    [generate_plan] (see [advance_while_total]). *)
Definition depth_bound (meta : list book) (b : Z) : nat :=
  S (Z.to_nat (Z.of_nat (List.length meta) - b)).

Definition get_day_reading_text (meta : list book) (b curr_chapter day : Z)
  : result string :=
  get_day_reading_text_fuel (depth_bound meta b) meta b curr_chapter day.

(** The [while curr_chapter > curr_book["chapters"]] loop of
    [generate_plan]; it returns the new [b], [curr_book], [curr_chapter]. *)
Fixpoint advance_while (fuel : nat) (meta : list book) (b : Z)
    (curr_book : book) (curr_chapter : Z) : result (Z * book * Z) :=
  if curr_chapter >? chapters curr_book then
    match fuel with
    | O => OutOfFuel
    | S fuel' =>
        let b := b + 1 in
        let curr_chapter := curr_chapter - chapters curr_book in
        curr_book <- index meta b ;;
        advance_while fuel' meta b curr_book curr_chapter
    end
  else Ok (b, curr_book, curr_chapter).

(** The local variables of [generate_plan] that its loop reads and updates;
    [w] is the list of the rows given to [w.writerow] so far. *)
Module St.
Record t (date : Type) : Type := Make {
  w : list (string * string);
  b : Z;
  curr_day : date;
  curr_book : book;
  curr_chapter : Z
}.
Arguments Make {date}.
Arguments w {date}.
Arguments b {date}.
Arguments curr_day {date}.
Arguments curr_book {date}.
Arguments curr_chapter {date}.
End St.

(** What [generate_plan] hands back: the rows went to the file
    [reading_plan.csv] and the string ["Written to file"] is returned, or
    they are returned as CSV text. *)
Inductive plan_csv : Type :=
| WrittenToFile (file_rows : list (string * string))
| CsvText (text_rows : list (string * string)).

Definition plan_rows (p : plan_csv) : list (string * string) :=
  match p with
  | WrittenToFile rows => rows
  | CsvText rows => rows
  end.

Section Plan.

Context {date : Type} `{DateLike date}.

(** The body of [for i, day in enumerate(chapters_per_day)]; [len] is
    [len(chapters_per_day)]. *)
Definition plan_day (meta : list book) (len : Z) (st : St.t date)
    (i : Z) (day : Z) : result (St.t date) :=
  day_readings <- get_day_reading_text meta (St.b st) (St.curr_chapter st) day ;;
  let w := St.w st ++ [(strftime (St.curr_day st), day_readings)] in
  if negb (i =? len - 1) then
    let curr_day := add_one_day (St.curr_day st) in
    let curr_chapter := St.curr_chapter st + day in
    '(b, curr_book, curr_chapter) <-
      advance_while (depth_bound meta (St.b st)) meta (St.b st)
                    (St.curr_book st) curr_chapter ;;
    Ok (St.Make w b curr_day curr_book curr_chapter)
  else
    Ok (St.Make w (St.b st) (St.curr_day st) (St.curr_book st)
                (St.curr_chapter st)).

Fixpoint plan_for (meta : list book) (len : Z) (st : St.t date) (i : Z)
    (days : list Z) : result (St.t date) :=
  match days with
  | [] => Ok st
  | day :: days' =>
      st' <- plan_day meta len st i day ;;
      plan_for meta len st' (i + 1) days'
  end.

(** Lines 181 to 196: the plan is written row by row from the start
    state.  The result is the state when the loop is left. *)
Definition write_plan (meta : list book) (chapters_per_day : list Z)
    (start : date) : result (St.t date) :=
  let b := 0 in
  let curr_day := start in
  curr_book <- index meta b ;;
  let curr_chapter := 1 in
  plan_for meta (Z.of_nat (List.length chapters_per_day))
           (St.Make [] b curr_day curr_book curr_chapter) 0 chapters_per_day.

(** Lines 166 to 170: the quotas, with the fallback on [ValueError]. *)
Definition chapters_per_day_of (chapters duration : Z) : result (list Z) :=
  match split chapters duration with
  | Raise ValueError => Ok (List.map (fun _ => 1) (range chapters))
  | r => r
  end.

Definition generate_plan (meta : list book) (duration : Z) (start : date)
    (chapters : Z) (write : bool) : result plan_csv :=
  chapters_per_day <- chapters_per_day_of chapters duration ;;
  st <- write_plan meta chapters_per_day start ;;
  if write then Ok (WrittenToFile (St.w st)) else Ok (CsvText (St.w st)).

End Plan.

(** ** A concrete calendar

    The observable behaviour of [datetime.datetime] that the plan uses, on
    the proleptic Gregorian calendar: the day after a date, and the format
    [%m/%d/%Y] with its zero padding (two digits for the month and the day,
    four for the year, as the documentation of [strftime] gives them).  It
    is the instance at which the plan is evaluated on concrete inputs, all
    of them valid dates of the year 2021; the limits of [datetime] (years
    below 1000, whose padding depends on the platform, and the day after
    9999-12-31, which raises [OverflowError]) are outside it. *)

Module Gregorian.

Record t : Set := Date { year : Z; month : Z; day : Z }.

Definition is_leap (y : Z) : bool :=
  (y mod 4 =? 0) && (negb (y mod 100 =? 0) || (y mod 400 =? 0)).

Definition days_in_month (y m : Z) : Z :=
  if m =? 2 then (if is_leap y then 29 else 28)
  else if (m =? 4) || (m =? 6) || (m =? 9) || (m =? 11) then 30
  else 31.

Definition tomorrow (d : t) : t :=
  if day d <? days_in_month (year d) (month d) then
    Date (year d) (month d) (day d + 1)
  else if month d <? 12 then Date (year d) (month d + 1) 1
  else Date (year d + 1) 1 1.

Fixpoint zeros (k : nat) : string :=
  match k with
  | O => ""
  | S k' => "0" ^^ zeros k'
  end.

Definition zero_pad (width : nat) (z : Z) : string :=
  let s := str z in
  zeros (width - String.length s) ^^ s.

Definition mdY (d : t) : string :=
  zero_pad 2 (month d) ^^ "/" ^^ zero_pad 2 (day d) ^^ "/" ^^ zero_pad 4 (year d).

End Gregorian.

#[export] Instance gregorian_date : DateLike Gregorian.t :=
  {| add_one_day := Gregorian.tomorrow; strftime := Gregorian.mdY |}.

(** ** Vocabulary of the specification *)

(** The capacity of a container sequence. *)
Definition total_capacity (meta : list book) : Z :=
  sum (List.map chapters meta).

(** The units of the containers strictly before index [b]. *)
Definition units_before (meta : list book) (b : Z) : Z :=
  total_capacity (firstn (Z.to_nat b) meta).

(** The units consumed when the cursor is at [(b, curr_chapter)]. *)
Definition consumed (meta : list book) (b curr_chapter : Z) : Z :=
  units_before meta b + curr_chapter - 1.

(** The containers from index [b] onward. *)
Definition from_cursor (meta : list book) (b : Z) : list book :=
  skipn (Z.to_nat b) meta.

Definition positive_capacities (meta : list book) : Prop :=
  Forall (fun bk => 0 < chapters bk) meta.

Definition positive_quotas (quotas : list Z) : Prop :=
  Forall (fun q => 0 < q) quotas.



(** One segment of a day's text: ["{name} {p}"] or ["{name} {p}-{q}"]. *)
Definition segment (nm : string) (p q : Z) : string :=
  if p =? q then nm ^^ " " ^^ str p else nm ^^ " " ^^ str p ^^ "-" ^^ str q.

(** The character [a] occurs in [s]. *)
Definition has_char (a : ascii) (s : string) : Prop :=
  In a (list_ascii_of_string s).

(** The separator ["; "] occurs in [s]. *)
Definition has_separator (s : string) : Prop :=
  exists pre post, s = pre ^^ "; " ^^ post.

(** The arguments [(b, curr_chapter, day)] of a call of
    [get_day_reading_text] and of the recursive call that it makes (lines
    136 to 145 of the source). *)
Definition call : Set := (Z * Z * Z)%type.

Inductive rec_call (meta : list book) : call -> call -> Prop :=
| RecCall (b curr_chapter day : Z) (curr_book : book) :
    index meta b = Ok curr_book ->
    (curr_chapter + day - 1 <=? chapters curr_book) = false ->
    (curr_chapter + day - 1 >? chapters curr_book) = true ->
    rec_call meta (b, curr_chapter, day)
             (b + 1, 1, day - (chapters curr_book - curr_chapter) - 1).

(** A call within the contract of the describe algorithm: the position is
    within the current container and the quota is positive and at most the
    capacity that remains from the cursor onward. *)
Definition valid_call (meta : list book) (a : call) : Prop :=
  let '(b, curr_chapter, day) := a in
  0 <= b /\
  exists curr_book,
    index meta b = Ok curr_book /\
    1 <= curr_chapter <= chapters curr_book /\
    1 <= day /\
    consumed meta b curr_chapter + day <= total_capacity meta.

(** The quota of the call starting at [(b, curr_chapter)] lies within the
    first [k] containers from [b] onward. *)
Definition spans_at_most (meta : list book) (a : call) (k : nat) : Prop :=
  let '(b, curr_chapter, day) := a in
  (1 <= k)%nat /\
  curr_chapter + day - 1 <= total_capacity (firstn k (from_cursor meta b)).

(** The cursor of a loop state points at an existing unit of its
    container, and [curr_book] is that container. *)
Definition cursor_ok {date : Type} (meta : list book) (st : St.t date) : Prop :=
  0 <= St.b st
  /\ index meta (St.b st) = Ok (St.curr_book st)
  /\ 1 <= St.curr_chapter st <= chapters (St.curr_book st).

Definition consumed_at {date : Type} (meta : list book) (st : St.t date) : Z :=
  consumed meta (St.b st) (St.curr_chapter st).

(** The row is the text of a day of quota [day], described from a cursor
    that points at an existing unit. *)
Definition described (meta : list book) (day : Z) (row : string * string)
  : Prop :=
  exists b c bk,
    0 <= b /\ index meta b = Ok bk /\ 1 <= c <= chapters bk
    /\ get_day_reading_text meta b c day = Ok (snd row).

(** The loop state when day [j + 1] is about to be rendered: the state
    after the first [j] passes of the loop of [write_plan]. *)
Definition state_before_day {date : Type} `{DateLike date}
    (meta : list book) (quotas : list Z) (start : date) (j : nat)
  : result (St.t date) :=
  curr_book <- index meta 0 ;;
  plan_for meta (Z.of_nat (List.length quotas))
           (St.Make [] 0 start curr_book 1) 0 (firstn j quotas).

(** The inputs of a rendering within the contract: containers of positive
    capacity, at least one; positive quotas, at least one; and no more
    quota than capacity. *)
Definition renderable (meta : list book) (quotas : list Z) : Prop :=
  meta <> [] /\ positive_capacities meta
  /\ quotas <> [] /\ positive_quotas quotas
  /\ sum quotas <= total_capacity meta.

(** The containers of the example of the specification. *)
Definition alpha_beta : list book := [Book "Alpha" 5 120; Book "Beta" 3 80].

(** The text of a single unit: ["{name} {p}"] for a container of the
    sequence. *)
Definition single_unit_row (meta : list book) (row : string * string) : Prop :=
  exists bk p, In bk meta /\ snd row = name bk ^^ " " ^^ str p.

(** *** Statements of the specification that are compared with the code *)

(** The render example with its final cursor: three day entries with the
    given texts, and a cursor that has consumed the whole capacity, 8. *)
Definition render_example_claim (start : Gregorian.t) : Prop :=
  exists st,
    write_plan alpha_beta [4; 2; 2] start = Ok st
    /\ List.map snd (St.w st) = ["Alpha 1-4"; "Alpha 5; Beta 1"; "Beta 2-3"]
    /\ consumed_at alpha_beta st = 8.

(** The exact-boundary day as the specification states it: whenever the
    reading ends at the last unit of the container, the text is the one
    segment of the container and has no ["; "] separator. *)
Definition exact_boundary_claim : Prop :=
  forall (meta : list book) (b p remaining : Z) (c : book),
    index meta b = Ok c ->
    p + remaining - 1 = chapters c ->
    exists t,
      get_day_reading_text meta b p remaining = Ok t
      /\ t = segment (name c) p (chapters c)
      /\ ~ has_separator t.

(** The calendar flag: the boolean of the rendering decides whether the
    date advances from one day entry to the next. *)
Definition advance_calendar_claim : Prop :=
  forall (meta : list book) (duration : Z) (start : Gregorian.t)
         (chapters : Z) (advance_calendar : bool) (p : plan_csv),
    generate_plan meta duration start chapters advance_calendar = Ok p ->
    forall i, (i < List.length (plan_rows p))%nat ->
      nth i (List.map fst (plan_rows p)) ""
      = strftime (if advance_calendar then Nat.iter i add_one_day start
                  else start).


(** ** The rest of utils/generator.py *)

(** The keyword arguments [**config] that the module reads: the keys
    ["books"], ["duration"] and ["start"], each present or not. *)
Module Config.
Record t (date : Type) : Type := Make {
  books : option (list string);
  duration : option Z;
  start : option date
}.
Arguments Make {date}.
Arguments books {date}.
Arguments duration {date}.
Arguments start {date}.
End Config.

(** The dictionary that [process_meta] returns: the keys ["chapters"] and
    ["verses"] always, the three others when a plan was asked for. *)
Module Processed.
Record t (F : Type) : Type := Make {
  chapters : Z;
  verses : Z;
  chapters_per_day : option F;
  verses_per_day : option F;
  plan : option plan_csv
}.
Arguments Make {F}.
Arguments chapters {F}.
Arguments verses {F}.
Arguments chapters_per_day {F}.
Arguments verses_per_day {F}.
Arguments plan {F}.
End Processed.

(** The float that [a / b] evaluates to for integers and a divisor that is
    not zero; its value is left to the instance.  Python raises
    [OverflowError] when the quotient is beyond the range of a float; the
    model has no such outcome, and the properties of [process_meta] that
    depend on the division returning are stated for operands below
    [float_range_bound]. *)
Class TrueDiv (F : Type) : Type := true_quotient : Z -> Z -> F.

(** Integers below this bound in absolute value are floats exactly, so
    that [int(a / b)] is the exact quotient when [b] divides [a]. *)
Definition exact_int_bound : Z := 2 ^ 53.

(** A quotient of integers below this bound in absolute value, by a
    divisor that is not zero, is within the range of a float. *)
Definition float_range_bound : Z := 2 ^ 1023.

(** [a / b] *)
Definition truediv {F : Type} `{TrueDiv F} (a b : Z) : result F :=
  if b =? 0 then Raise ZeroDivisionError else Ok (true_quotient a b).

(** The quotient kept as the pair of its operands. *)
#[export] Instance operands_quotient : TrueDiv (Z * Z) := fun a b => (a, b).

(** The loop of [process_meta] over the books: the two running totals. *)
Definition count_totals (meta : list book) : Z * Z :=
  fold_left (fun '(total_chapter_count, total_verse_count) bk =>
               (total_chapter_count + chapters bk,
                total_verse_count + verses bk))
            meta (0, 0).

Definition process_meta {date F : Type} `{DateLike date} `{TrueDiv F}
    (meta : list book) (write : bool) (config : Config.t date)
  : result (Processed.t F) :=
  let '(total_chapter_count, total_verse_count) := count_totals meta in
  match Config.duration config, Config.start config with
  | Some duration, Some start =>
      chapters_per_day <- truediv total_chapter_count duration ;;
      verses_per_day <- truediv total_verse_count duration ;;
      plan_csv <- generate_plan meta duration start total_chapter_count write ;;
      Ok (Processed.Make total_chapter_count total_verse_count
            (Some chapters_per_day) (Some verses_per_day) (Some plan_csv))
  | _, _ =>
      Ok (Processed.Make total_chapter_count total_verse_count None None None)
  end.

(** A book object of the catalog, as the API or the prefetched file gives
    it: the keys ["name"] and ["id"]. *)
Record catalog_book : Set := CatalogBook { cat_name : string; cat_id : string }.

(** [d["name"] in config["books"]] *)
Definition name_requested (names : list string) (d : catalog_book) : bool :=
  existsb (String.eqb (cat_name d)) names.

(** Lines 42, 43 and 58 of [request_metadata]: the check of the ["books"]
    key and the selection of the books to process, [books] being the
    catalog that the API or the prefetched file returned in between. *)
Definition select_books {date : Type} (config : Config.t date)
    (books : list catalog_book) : result (list catalog_book) :=
  match Config.books config with
  | None => Raise ValueError
  | Some names => Ok (List.filter (name_requested names) books)
  end.

(** The selection of the books, told as a walk along the catalog: an
    entry is kept when its name is requested and left out when it is not,
    and nothing else is added. *)
Inductive selection (names : list string)
  : list catalog_book -> list catalog_book -> Prop :=
| SelectionEnd : selection names [] []
| SelectionKeep (d : catalog_book) (books selected : list catalog_book) :
    In (cat_name d) names ->
    selection names books selected ->
    selection names (d :: books) (d :: selected)
| SelectionSkip (d : catalog_book) (books selected : list catalog_book) :
    ~ In (cat_name d) names ->
    selection names books selected ->
    selection names (d :: books) selected.

(** *** Vocabulary for the text of a day *)

(** The ranges that a day of quota [day] covers from position [c] of the
    first container of [l], container by container: the container, the
    first unit and the last unit. *)
Fixpoint day_segments (l : list book) (c day : Z) : list (book * Z * Z) :=
  match l with
  | [] => []
  | bk :: tl =>
      if c + day - 1 <=? chapters bk then [(bk, c, c + day - 1)]
      else (bk, c, chapters bk) :: day_segments tl 1 (day - (chapters bk - c) - 1)
  end.

Definition render_segment (s : book * Z * Z) : string :=
  let '(bk, p, q) := s in segment (name bk) p q.

(** The segments of a day, joined with ["; "]. *)
Definition join_segments (segs : list (book * Z * Z)) : string :=
  String.concat "; " (List.map render_segment segs).

(** The units of a range. *)
Definition segment_units (s : book * Z * Z) : Z :=
  let '(_, p, q) := s in q - p + 1.

(** A range within its container. *)
Definition segment_ok (s : book * Z * Z) : Prop :=
  let '(bk, p, q) := s in 1 <= p <= q /\ q <= chapters bk.

(** * Properties *)

(** ** Lists of integers *)

Section ListFacts.

Lemma sum_app (l1 l2 : list Z) : sum (l1 ++ l2) = sum l1 + sum l2.
Proof.
  unfold sum. induction l1 as [|a l1 IH]; simpl; [reflexivity | lia].
Qed.

Lemma sum_repeat (a : Z) (k : nat) : sum (repeat a k) = Z.of_nat k * a.
Proof.
  unfold sum. induction k as [|k IH]; [reflexivity |].
  cbn [repeat fold_right]. rewrite IH. lia.
Qed.

Lemma sum_concat_repeat (l : list Z) (k : nat) :
  sum (List.concat (repeat l k)) = Z.of_nat k * sum l.
Proof.
  induction k as [|k IH]; [reflexivity |].
  cbn [repeat List.concat]. rewrite sum_app, IH. lia.
Qed.

Lemma length_concat_repeat {A : Type} (l : list A) (k : nat) :
  List.length (List.concat (repeat l k)) = (k * List.length l)%nat.
Proof.
  induction k as [|k IH]; [reflexivity |].
  cbn [repeat List.concat]. rewrite length_app, IH. lia.
Qed.

Lemma Forall_concat_repeat {A : Type} (P : A -> Prop) (l : list A) (k : nat) :
  Forall P l -> Forall P (List.concat (repeat l k)).
Proof.
  intros Hl. induction k as [|k IH]; [constructor |].
  cbn [repeat List.concat]. apply Forall_app. split; assumption.
Qed.

Lemma Forall_repeat {A : Type} (P : A -> Prop) (a : A) (k : nat) :
  P a -> Forall P (repeat a k).
Proof.
  intros Ha. induction k as [|k IH]; constructor; assumption.
Qed.

Lemma count_occ_concat_repeat (l : list Z) (k : nat) (v : Z) :
  count_occ Z.eq_dec (List.concat (repeat l k)) v
  = (k * count_occ Z.eq_dec l v)%nat.
Proof.
  induction k as [|k IH]; [reflexivity |].
  cbn [repeat List.concat]. rewrite count_occ_app, IH. lia.
Qed.

Lemma count_occ_repeat_same (a : Z) (k : nat) :
  count_occ Z.eq_dec (repeat a k) a = k.
Proof.
  induction k as [|k IH]; [reflexivity |].
  cbn [repeat]. rewrite count_occ_cons_eq by reflexivity. now rewrite IH.
Qed.

Lemma count_occ_repeat_other (a v : Z) (k : nat) :
  a <> v -> count_occ Z.eq_dec (repeat a k) v = 0%nat.
Proof.
  intros Hav. induction k as [|k IH]; [reflexivity |].
  cbn [repeat]. now rewrite count_occ_cons_neq.
Qed.

Lemma concat_repeat_comm {A : Type} (blk : list A) (k : nat) :
  List.concat (repeat blk k) ++ blk = blk ++ List.concat (repeat blk k).
Proof.
  induction k as [|k IH]; cbn [repeat List.concat].
  - now rewrite app_nil_r.
  - now rewrite <- app_assoc, IH.
Qed.

Lemma for_range_app {A : Type} (n : Z) (blk out : list A) :
  for_range n (fun o => o ++ blk) out
  = out ++ List.concat (repeat blk (Z.to_nat n)).
Proof.
  unfold for_range. induction (Z.to_nat n) as [|k IH].
  - cbn. now rewrite app_nil_r.
  - cbn [Nat.iter nat_rect repeat List.concat]. unfold Nat.iter in IH.
    rewrite IH, <- app_assoc. f_equal. apply concat_repeat_comm.
Qed.

Lemma concat_repeat_singleton {A : Type} (a : A) (k : nat) :
  List.concat (repeat [a] k) = repeat a k.
Proof.
  induction k as [|k IH]; [reflexivity |].
  cbn [repeat List.concat]. now rewrite IH.
Qed.

End ListFacts.

(** ** The partitioner *)

(** The parts that one pass of the loop appends. *)
Lemma split_pass_block (hi lo pp : Z) (out : list Z) :
  split_pass hi lo pp out
  = out ++ (List.concat (repeat [pp; pp + 1] (Z.to_nat (Z.min hi lo)))
            ++ repeat (if hi >? lo then pp + 1 else pp)
                      (Z.to_nat (Z.abs (hi - lo)))).
Proof.
  unfold split_pass. destruct (hi >? lo) eqn:E.
  - rewrite !for_range_app, concat_repeat_singleton, <- app_assoc.
    replace (Z.min hi lo) with lo by lia.
    replace (Z.abs (hi - lo)) with (hi - lo) by lia. reflexivity.
  - rewrite !for_range_app, concat_repeat_singleton, <- app_assoc.
    replace (Z.min hi lo) with hi by lia.
    replace (Z.abs (hi - lo)) with (lo - hi) by lia. reflexivity.
Qed.

Lemma split_pass_app (hi lo pp : Z) (out : list Z) :
  split_pass hi lo pp out = out ++ split_pass hi lo pp [].
Proof.
  rewrite (split_pass_block hi lo pp out), (split_pass_block hi lo pp []).
  reflexivity.
Qed.

(** [k] passes bring [i] to [n] exactly and append [k] blocks. *)
Lemma split_while_passes (n hi lo pp : Z) :
  0 < lo + hi ->
  forall (k fuel : nat) (i : Z) (out : list Z),
    (k <= fuel)%nat ->
    i + Z.of_nat k * (lo + hi) = n ->
    split_while fuel n hi lo pp i out
    = Ok (out ++ List.concat (repeat (split_pass hi lo pp []) k)).
Proof.
  intros Hs k. induction k as [|k IH]; intros fuel i out Hf Hi.
  - destruct fuel; cbn [split_while];
      replace (i <? n) with false by lia;
      cbn; now rewrite app_nil_r.
  - destruct fuel as [|fuel]; [lia |].
    cbn [split_while]. replace (i <? n) with true by nia.
    rewrite IH by lia. cbn [repeat List.concat].
    rewrite (split_pass_app hi lo pp out), <- app_assoc. reflexivity.
Qed.

(** The loop is not entered when [i] has reached [n]. *)
Lemma split_while_done (fuel : nat) (n hi lo pp i : Z) (out : list Z) :
  n <= i -> split_while fuel n hi lo pp i out = Ok out.
Proof.
  intros Hi. destruct fuel; cbn [split_while];
    replace (i <? n) with false by lia; reflexivity.
Qed.

Lemma split_even (x n : Z) :
  1 <= n -> n <= x -> x mod n = 0 ->
  split x n = Ok (repeat (x / n) (Z.to_nat n)).
Proof.
  intros Hn Hx Hr. unfold split, split_fuel, mod_, floordiv.
  replace (x <? n) with false by lia.
  replace (n =? 0) with false by lia. cbn [bind].
  rewrite Hr. cbn [Z.eqb bind].
  now rewrite for_range_app, concat_repeat_singleton.
Qed.

(** The two counts and their common divisor, when the division is uneven. *)
Lemma uneven_counts (x n : Z) :
  1 <= n -> x mod n <> 0 ->
  let r := x mod n in
  let g := Z.gcd r (n - r) in
  0 < r < n /\ 0 < g /\ g * (r / g) = r /\ g * ((n - r) / g) = n - r
  /\ 1 <= r / g /\ 1 <= (n - r) / g /\ g <= r.
Proof.
  intros Hn Hr r g.
  assert (Hb : 0 <= r < n) by (apply Z.mod_pos_bound; lia).
  assert (Hrn : 0 < r < n) by (subst r; lia).
  assert (Hg0 : 0 <= g) by apply Z.gcd_nonneg.
  assert (Hgn : g <> 0).
  { intros E. apply Z.gcd_eq_0_l in E. lia. }
  destruct (Z.gcd_divide_l r (n - r)) as [a Ha].
  destruct (Z.gcd_divide_r r (n - r)) as [c Hc].
  fold g in Ha, Hc.
  assert (Hra : r / g = a) by (rewrite Ha; apply Z.div_mul; assumption).
  assert (Hrc : (n - r) / g = c) by (rewrite Hc; apply Z.div_mul; assumption).
  rewrite Hra, Hrc. clearbody g r.
  assert (Ha1 : 1 <= a) by nia.
  assert (Hc1 : 1 <= c) by nia.
  repeat split; try lia; nia.
Qed.

Lemma split_uneven (x n : Z) :
  1 <= n -> n <= x -> x mod n <> 0 ->
  let r := x mod n in
  let g := Z.gcd r (n - r) in
  split x n
  = Ok (List.concat (repeat (split_pass (r / g) ((n - r) / g) (x / n) [])
                            (Z.to_nat g))).
Proof.
  intros Hn Hx Hr r g.
  destruct (uneven_counts x n Hn Hr) as (Hrn & Hg & Hhi & Hlo & Hhi1 & Hlo1 & Hgr).
  fold r in Hrn, Hg, Hhi, Hlo, Hhi1, Hlo1, Hgr.
  fold g in Hg, Hhi, Hlo, Hhi1, Hlo1, Hgr.
  unfold split, split_fuel, mod_, floordiv, int_truediv, gcd.
  replace (x <? n) with false by lia.
  replace (n =? 0) with false by lia. cbn [bind]. fold r.
  replace (r =? 0) with false by lia.
  replace (n - (n - r)) with r by lia.
  replace (if r >? n - r then Z.gcd r (n - r) else Z.gcd (n - r) r) with g
    by (destruct (r >? n - r); [reflexivity | apply Z.gcd_comm]).
  replace (g =? 0) with false by lia. cbn [bind].
  rewrite !Z.quot_div_nonneg by lia.
  rewrite (split_while_passes n (r / g) ((n - r) / g) (x / n))
    with (k := Z.to_nat g); [reflexivity | lia | lia | ].
  rewrite Z2Nat.id by lia. lia.
Qed.

(** The bound on the passes that [split] supplies is enough, whatever the
    arguments: the result is never the exhaustion of the bound, and a larger
    bound gives the same result. *)
Lemma split_fuel_enough (fuel : nat) (x n : Z) :
  (Z.to_nat n <= fuel)%nat ->
  split_fuel fuel x n = split x n /\ split x n <> OutOfFuel.
Proof.
  intros Hf.
  destruct (Z.ltb_spec x n) as [Hlt | Hge].
  { unfold split, split_fuel. replace (x <? n) with true by lia.
    split; [reflexivity | discriminate]. }
  destruct (Z.eq_dec n 0) as [-> | Hn0].
  { unfold split, split_fuel, mod_. replace (x <? 0) with false by lia.
    cbn. split; [reflexivity | discriminate]. }
  destruct (Z.eq_dec (x mod n) 0) as [Hr | Hr].
  { unfold split, split_fuel, mod_, floordiv. replace (x <? n) with false by lia.
    replace (n =? 0) with false by lia. cbn [bind]. rewrite Hr. cbn.
    split; [reflexivity | discriminate]. }
  destruct (Z.lt_ge_cases n 1) as [Hneg | Hpos].
  - unfold split, split_fuel, mod_, floordiv, int_truediv.
    replace (x <? n) with false by lia.
    replace (n =? 0) with false by lia. cbn [bind].
    replace (x mod n =? 0) with false by lia.
    set (cd := if _ >? _ then _ else _).
    destruct (cd =? 0); cbn [bind]; [split; [reflexivity | discriminate] |].
    rewrite !split_while_done by lia. split; [reflexivity | discriminate].
  - pose proof (split_uneven x n Hpos Hge Hr) as Hs. cbn zeta in Hs.
    split; [| rewrite Hs; discriminate].
    rewrite Hs.
    destruct (uneven_counts x n Hpos Hr) as (Hrn & Hg & Hhi & Hlo & Hhi1 & Hlo1 & Hgr).
    unfold split_fuel, mod_, floordiv, int_truediv, gcd.
    replace (x <? n) with false by lia.
    replace (n =? 0) with false by lia. cbn [bind].
    replace (x mod n =? 0) with false by lia.
    replace (n - (n - x mod n)) with (x mod n) by lia.
    set (r := x mod n) in *. set (g := Z.gcd r (n - r)) in *.
    replace (if r >? n - r then g else Z.gcd (n - r) r) with g
      by (destruct (r >? n - r); [reflexivity | apply Z.gcd_comm]).
    replace (g =? 0) with false by lia. cbn [bind].
    rewrite !Z.quot_div_nonneg by lia.
    rewrite (split_while_passes n (r / g) ((n - r) / g) (x / n))
      with (k := Z.to_nat g); [reflexivity | lia | lia | ].
    rewrite Z2Nat.id by lia. lia.
Qed.

(** What one block holds, for counts that are not negative. *)
Lemma block_facts (hi lo pp : Z) :
  0 <= hi -> 0 <= lo ->
  let blk := split_pass hi lo pp [] in
  sum blk = lo * pp + hi * (pp + 1)
  /\ Z.of_nat (List.length blk) = hi + lo
  /\ Z.of_nat (count_occ Z.eq_dec blk (pp + 1)) = hi
  /\ Forall (fun v => v = pp \/ v = pp + 1) blk.
Proof.
  intros Hhi Hlo blk. subst blk. rewrite split_pass_block. cbn [app].
  assert (Hne : pp <> pp + 1) by lia.
  repeat split.
  - rewrite sum_app, sum_concat_repeat, sum_repeat. cbn [sum fold_right].
    destruct (hi >? lo) eqn:E; rewrite !Z2Nat.id by lia; nia.
  - rewrite length_app, length_concat_repeat, repeat_length. cbn [List.length].
    lia.
  - rewrite count_occ_app, count_occ_concat_repeat.
    rewrite count_occ_cons_neq by assumption.
    rewrite count_occ_cons_eq by reflexivity. cbn [count_occ].
    destruct (hi >? lo) eqn:E.
    + rewrite count_occ_repeat_same. lia.
    + rewrite count_occ_repeat_other by assumption. lia.
  - apply Forall_app. split.
    + apply Forall_concat_repeat.
      repeat (apply Forall_cons; [lia |]). apply Forall_nil.
    + apply Forall_repeat. destruct (hi >? lo); auto.
Qed.








(** ** Lookups in the container sequence *)

Lemma nth_error_split {A : Type} (l : list A) (k : nat) (x : A) :
  nth_error l k = Some x ->
  skipn k l = x :: skipn (S k) l /\ firstn (S k) l = firstn k l ++ [x].
Proof.
  revert k. induction l as [|a l IH]; intros [|k] Hk; try discriminate.
  - injection Hk as ->. now split.
  - cbn [nth_error] in Hk. destruct (IH k Hk) as [Hs Hf]. split.
    + exact Hs.
    + cbn [firstn app]. cbn [firstn] in Hf. now rewrite Hf.
Qed.

Lemma index_nth_error {A : Type} (l : list A) (i : Z) (x : A) :
  0 <= i -> (index l i = Ok x <-> nth_error l (Z.to_nat i) = Some x).
Proof.
  intros Hi. unfold index. replace (i <? 0) with false by lia.
  destruct (nth_error l (Z.to_nat i)) as [y|] eqn:E.
  - assert (Z.to_nat i < List.length l)%nat
      by (apply nth_error_Some; congruence).
    replace ((0 <=? i) && (i <? Z.of_nat (List.length l))) with true
      by (symmetry; apply andb_true_iff; lia).
    split; intros Hx; congruence.
  - destruct ((0 <=? i) && (i <? Z.of_nat (List.length l)));
      split; intros Hx; discriminate.
Qed.

(** A successful lookup is within the sequence. *)
Lemma index_in_range {A : Type} (l : list A) (i : Z) (x : A) :
  index l i = Ok x ->
  - Z.of_nat (List.length l) <= i < Z.of_nat (List.length l).
Proof.
  unfold index. intros Hx.
  destruct (i <? 0) eqn:Ei;
    match type of Hx with
    | (if ?c then _ else _) = _ => destruct c eqn:Ec; [| discriminate]
    end;
    apply andb_true_iff in Ec; lia.
Qed.

Lemma index_In {A : Type} (l : list A) (i : Z) (x : A) :
  index l i = Ok x -> In x l.
Proof.
  unfold index. intros Hx.
  match type of Hx with
  | (if ?c then _ else _) = _ => destruct c; [| discriminate]
  end.
  match type of Hx with
  | match nth_error ?l ?k with _ => _ end = _ =>
      destruct (nth_error l k) eqn:E; [| discriminate]
  end.
  injection Hx as <-. eapply nth_error_In; eassumption.
Qed.

Lemma from_cursor_index (meta : list book) (b : Z) (bk : book) :
  0 <= b -> index meta b = Ok bk ->
  from_cursor meta b = bk :: from_cursor meta (b + 1).
Proof.
  intros Hb Hi. apply index_nth_error in Hi; [| assumption].
  unfold from_cursor. replace (Z.to_nat (b + 1)) with (S (Z.to_nat b)) by lia.
  now apply nth_error_split.
Qed.

Lemma index_from_cursor (meta : list book) (b : Z) (bk : book) (tl : list book) :
  0 <= b -> from_cursor meta b = bk :: tl -> index meta b = Ok bk.
Proof.
  intros Hb Hs. apply index_nth_error; [assumption |].
  rewrite <- hd_error_skipn. unfold from_cursor in Hs. now rewrite Hs.
Qed.

Lemma total_capacity_app (l1 l2 : list book) :
  total_capacity (l1 ++ l2) = total_capacity l1 + total_capacity l2.
Proof.
  unfold total_capacity. now rewrite map_app, sum_app.
Qed.

Lemma total_capacity_cons (bk : book) (l : list book) :
  total_capacity (bk :: l) = chapters bk + total_capacity l.
Proof. reflexivity. Qed.

Lemma units_before_succ (meta : list book) (b : Z) (bk : book) :
  0 <= b -> index meta b = Ok bk ->
  units_before meta (b + 1) = units_before meta b + chapters bk.
Proof.
  intros Hb Hi. apply index_nth_error in Hi; [| assumption].
  unfold units_before. replace (Z.to_nat (b + 1)) with (S (Z.to_nat b)) by lia.
  destruct (nth_error_split _ _ _ Hi) as [_ ->].
  rewrite total_capacity_app, total_capacity_cons.
  change (total_capacity []) with 0. lia.
Qed.

Lemma total_capacity_cursor (meta : list book) (b : Z) :
  total_capacity meta = units_before meta b + total_capacity (from_cursor meta b).
Proof.
  unfold units_before, from_cursor.
  now rewrite <- total_capacity_app, firstn_skipn.
Qed.

Lemma total_capacity_nonneg (l : list book) :
  positive_capacities l -> 0 <= total_capacity l.
Proof.
  induction 1 as [|bk l Hbk _ IH]; [cbv; discriminate |].
  rewrite total_capacity_cons. lia.
Qed.

Lemma positive_from_cursor (meta : list book) (b : Z) :
  positive_capacities meta -> positive_capacities (from_cursor meta b).
Proof.
  unfold positive_capacities, from_cursor. intros Hm.
  rewrite Forall_forall in *. intros x Hx. apply Hm.
  rewrite <- (firstn_skipn (Z.to_nat b) meta). apply in_or_app. now right.
Qed.

Lemma depth_bound_from_cursor (meta : list book) (b : Z) :
  0 <= b -> depth_bound meta b = S (List.length (from_cursor meta b)).
Proof.
  intros Hb. unfold depth_bound, from_cursor. rewrite length_skipn. lia.
Qed.

(** ** Strings *)

Lemma append_assoc (s1 s2 s3 : string) : (s1 ^^ s2) ^^ s3 = s1 ^^ s2 ^^ s3.
Proof.
  induction s1 as [|a s1 IH]; [reflexivity |].
  cbn [String.append]. now rewrite IH.
Qed.

Lemma list_ascii_append (s1 s2 : string) :
  list_ascii_of_string (s1 ^^ s2)
  = list_ascii_of_string s1 ++ list_ascii_of_string s2.
Proof.
  induction s1 as [|a s1 IH]; [reflexivity |].
  cbn [String.append list_ascii_of_string app]. now rewrite IH.
Qed.

Lemma has_char_append (a : ascii) (s1 s2 : string) :
  has_char a (s1 ^^ s2) <-> has_char a s1 \/ has_char a s2.
Proof.
  unfold has_char. rewrite list_ascii_append. apply in_app_iff.
Qed.

Lemma has_separator_has_char (s : string) :
  has_separator s -> has_char ";" s.
Proof.
  intros (pre & post & ->). apply has_char_append. right.
  apply has_char_append. left. cbn. now left.
Qed.

Lemma uint_no_semicolon (d : Decimal.uint) :
  ~ has_char ";" (NilEmpty.string_of_uint d).
Proof.
  unfold has_char.
  induction d; cbn [NilEmpty.string_of_uint list_ascii_of_string In];
    intuition discriminate.
Qed.

Lemma str_no_semicolon (z : Z) : ~ has_char ";" (str z).
Proof.
  unfold str.
  assert (Hu : forall d, ~ has_char ";" (NilZero.string_of_uint d)).
  { intros d Hd. destruct d; try (now apply uint_no_semicolon in Hd).
    cbn in Hd. destruct Hd as [Hd | []]. discriminate. }
  destruct (Z.to_int z) as [d | d]; cbn [NilZero.string_of_int].
  - apply Hu.
  - intros [Hd | Hd]; [discriminate |]. now apply Hu in Hd.
Qed.

(** ** The describe algorithm *)

(** Concatenations are compared after reassociating them to the right. *)
Ltac norm_append :=
  repeat (progress (rewrite ?append_assoc; cbn [String.append negb])).

(** The day's reading stays within the current container (lines 129 to
    134): one activation, one segment. *)
Lemma text_within (fuel : nat) (meta : list book) (b c day : Z) (bk : book) :
  index meta b = Ok bk ->
  c + day - 1 <= chapters bk ->
  get_day_reading_text_fuel (S fuel) meta b c day
  = Ok (name bk ^^ " "
        ^^ (if day =? 1 then str c else str c ^^ "-" ^^ str (c + day - 1))).
Proof.
  intros Hi Hc. cbn [get_day_reading_text_fuel]. rewrite Hi. cbn [bind].
  replace (c + day - 1 <=? chapters bk) with true by lia.
  destruct (day =? 1); norm_append; reflexivity.
Qed.

(** The container is exhausted first (lines 136 to 145): the text of the
    rest of the container, the separator, and the text of the recursive
    call. *)
Lemma text_rollover (fuel : nat) (meta : list book) (b c day : Z) (bk : book) :
  index meta b = Ok bk ->
  chapters bk < c + day - 1 ->
  get_day_reading_text_fuel (S fuel) meta b c day
  = (rest <- get_day_reading_text_fuel fuel meta (b + 1) 1
               (day - (chapters bk - c) - 1) ;;
     Ok (name bk ^^ " "
         ^^ (if c =? chapters bk then str c
             else str c ^^ "-" ^^ str (chapters bk))
         ^^ "; " ^^ rest)).
Proof.
  intros Hi Hc. cbn [get_day_reading_text_fuel]. rewrite Hi. cbn [bind].
  replace (c + day - 1 <=? chapters bk) with false by lia.
  replace (c + day - 1 >? chapters bk) with true by lia.
  destruct (get_day_reading_text_fuel fuel meta (b + 1) 1 _); cbn [bind];
    try reflexivity.
  destruct (c =? chapters bk); norm_append; reflexivity.
Qed.

(** The relation [rec_call] is the recursive call of the function. *)
Lemma rec_call_unfold (meta : list book) (a a' : call) :
  rec_call meta a a' ->
  exists prefix, forall fuel,
    (let '(b, c, day) := a in get_day_reading_text_fuel (S fuel) meta b c day)
    = (rest <- (let '(b', c', day') := a' in
                get_day_reading_text_fuel fuel meta b' c' day') ;;
       Ok (prefix ^^ rest)).
Proof.
  intros [b c day bk Hi Hle Hgt].
  exists (name bk ^^ " " ^^ (if c =? chapters bk then str c
                           else str c ^^ "-" ^^ str (chapters bk)) ^^ "; ").
  intros fuel. rewrite (text_rollover fuel meta b c day bk Hi) by lia.
  destruct (get_day_reading_text_fuel fuel meta (b + 1) 1 _); cbn [bind];
    try reflexivity.
  norm_append; reflexivity.
Qed.

(** More fuel does not change a result. *)
Lemma text_fuel_mono (f1 f2 : nat) (meta : list book) (b c day : Z)
    (r : result string) :
  (f1 <= f2)%nat ->
  get_day_reading_text_fuel f1 meta b c day = r -> r <> OutOfFuel ->
  get_day_reading_text_fuel f2 meta b c day = r.
Proof.
  revert f2 b c day r.
  induction f1 as [|f1 IH]; intros f2 b c day r Hf Hr Hne.
  - cbn in Hr. congruence.
  - destruct f2 as [|f2]; [lia |].
    cbn [get_day_reading_text_fuel] in *.
    destruct (index meta b) as [bk | e |]; cbn [bind] in *; try assumption.
    destruct (c + day - 1 <=? chapters bk); [assumption |].
    destruct (c + day - 1 >? chapters bk); [| assumption].
    destruct (get_day_reading_text_fuel f1 meta (b + 1) 1 _) as [t | e |] eqn:E;
      cbn [bind] in Hr.
    + rewrite (IH f2 _ _ _ (Ok t)); [assumption | lia | assumption | discriminate].
    + rewrite (IH f2 _ _ _ (Raise e)); [assumption | lia | assumption | discriminate].
    + congruence.
Qed.

(** The depth bound is enough, whatever the arguments. *)
Lemma text_fuel_total (fuel : nat) (meta : list book) (b c day : Z) :
  (depth_bound meta b <= fuel)%nat ->
  get_day_reading_text_fuel fuel meta b c day <> OutOfFuel.
Proof.
  revert b c day. induction fuel as [|fuel IH]; intros b c day Hf.
  - unfold depth_bound in Hf. lia.
  - cbn [get_day_reading_text_fuel].
    destruct (index meta b) as [bk | e |] eqn:Hi; cbn [bind]; try discriminate.
    + apply index_in_range in Hi.
      destruct (c + day - 1 <=? chapters bk);
        [destruct (negb (day =? 1)); discriminate |].
      destruct (c + day - 1 >? chapters bk); [| discriminate].
      specialize (IH (b + 1) 1 (day - (chapters bk - c) - 1)).
      destruct (get_day_reading_text_fuel fuel meta (b + 1) 1 _); cbn [bind];
        try discriminate.
      apply IH. unfold depth_bound in *. lia.
    + unfold index in Hi.
      repeat match type of Hi with
             | (if ?x then _ else _) = _ => destruct x
             | match ?x with _ => _ end = _ => destruct x
             end; discriminate.
Qed.

Lemma text_fuel_enough (fuel : nat) (meta : list book) (b c day : Z)
    (t : string) :
  get_day_reading_text_fuel fuel meta b c day = Ok t ->
  get_day_reading_text meta b c day = Ok t.
Proof.
  intros Ht. unfold get_day_reading_text.
  destruct (Nat.le_ge_cases fuel (depth_bound meta b)) as [Hle | Hge].
  - eapply text_fuel_mono; [exact Hle | exact Ht | discriminate].
  - pose proof (text_fuel_total _ meta b c day (Nat.le_refl _)) as Hne.
    pose proof (text_fuel_mono _ fuel meta b c day _ Hge eq_refl Hne) as Heq.
    congruence.
Qed.

(** C7. Exact-boundary day: when [position + remaining - 1] is the capacity
    of the current container, a single activation answers (no rollover, no
    recursion) and the text is one segment that names the current container
    only; what follows the name has no semicolon, so the text has no ["; "]
    separator unless the name itself holds a semicolon. *)
Theorem exact_boundary_single_segment (meta : list book) (b p remaining : Z)
    (c : book) :
  index meta b = Ok c ->
  p + remaining - 1 = chapters c ->
  get_day_reading_text meta b p remaining = Ok (segment (name c) p (chapters c))
  /\ get_day_reading_text_fuel 1 meta b p remaining
     = Ok (segment (name c) p (chapters c))
  /\ (exists range, segment (name c) p (chapters c) = name c ^^ " " ^^ range
                    /\ ~ has_char ";" range)
  /\ (~ has_char ";" (name c) ->
      ~ has_separator (segment (name c) p (chapters c))).
Proof.
  intros Hi Hp.
  assert (Hone : get_day_reading_text_fuel 1 meta b p remaining
                 = Ok (segment (name c) p (chapters c))).
  { rewrite (text_within 0 meta b p remaining c Hi) by lia.
    unfold segment. rewrite Hp.
    destruct (Z.eqb_spec remaining 1) as [E | E].
    - replace (p =? chapters c) with true by lia. reflexivity.
    - replace (p =? chapters c) with false by lia. reflexivity. }
  assert (Hrange : exists range,
             segment (name c) p (chapters c) = name c ^^ " " ^^ range
             /\ ~ has_char ";" range).
  { unfold segment. destruct (p =? chapters c).
    - exists (str p). split; [reflexivity | apply str_no_semicolon].
    - exists (str p ^^ "-" ^^ str (chapters c)). split; [reflexivity |].
      rewrite !has_char_append. intros [H | [H | H]].
      + now apply str_no_semicolon in H.
      + cbn in H. destruct H as [H | []]. discriminate.
      + now apply str_no_semicolon in H. }
  split; [| split; [| split]].
  - now apply (text_fuel_enough 1).
  - exact Hone.
  - exact Hrange.
  - intros Hname Hsep. apply has_separator_has_char in Hsep.
    destruct Hrange as (range & Heq & Hr).
    rewrite Heq, !has_char_append in Hsep. destruct Hsep as [H | [H | H]]; auto.
    cbn in H. destruct H as [H | []]. discriminate.
Qed.

(** A container whose name holds ["; "] brings the separator into the
    text of an exact-boundary day. *)
Lemma exact_boundary_name_with_separator : ~ exact_boundary_claim.
Proof.
  intros Hclaim.
  destruct (Hclaim [Book "A; B" 5 10] 0 2 4 (Book "A; B" 5 10)
                   eq_refl eq_refl) as (t & _ & -> & Hsep).
  apply Hsep. exists "A", "B 2-5". reflexivity.
Qed.

Lemma exact_boundary_single_segment_witness :
  get_day_reading_text [Book "Alpha" 5 120; Book "Beta" 3 80] 0 2 4
  = Ok "Alpha 2-5"
  /\ ~ has_separator "Alpha 2-5".
Proof.
  destruct (exact_boundary_single_segment
              [Book "Alpha" 5 120; Book "Beta" 3 80] 0 2 4 (Book "Alpha" 5 120)
              eq_refl eq_refl) as (Ht & _ & _ & Hsep).
  split; [exact Ht |].
  apply Hsep. cbn. intuition discriminate.
Defined.

(** A recursive call made within the contract is within the contract, and
    its quota is smaller. *)
Lemma rec_call_valid (meta : list book) (a a' : call) :
  positive_capacities meta ->
  valid_call meta a -> rec_call meta a a' ->
  valid_call meta a' /\ snd a' < snd a.
Proof.
  intros Hpos Hv Hcall. destruct Hcall as [b c day bk Hi Hle Hgt].
  destruct Hv as (Hb & bk0 & Hi0 & Hc & Hday & Hcap).
  assert (bk0 = bk) by congruence. subst bk0.
  cbn [snd]. split; [| lia].
  pose proof (total_capacity_cursor meta b) as Htot.
  rewrite (from_cursor_index meta b bk Hb Hi), total_capacity_cons in Htot.
  unfold consumed in Hcap.
  destruct (from_cursor meta (b + 1)) as [|bk' tl] eqn:Hnext.
  { change (total_capacity []) with 0 in Htot. lia. }
  assert (Hi' : index meta (b + 1) = Ok bk')
    by (eapply index_from_cursor; [lia | eassumption]).
  split; [lia |]. exists bk'. split; [exact Hi' |].
  assert (0 < chapters bk').
  { unfold positive_capacities in Hpos. rewrite Forall_forall in Hpos.
    apply Hpos. eapply index_In; eassumption. }
  unfold consumed. rewrite (units_before_succ meta b bk Hb Hi). lia.
Qed.

(** A quota that lies within the first [k] containers from the cursor is
    described by at most [k] nested activations. *)
Lemma text_within_span (meta : list book) :
  positive_capacities meta ->
  forall (k : nat) (a : call),
    valid_call meta a -> spans_at_most meta a k ->
    exists t, (let '(b, c, day) := a in
               get_day_reading_text_fuel k meta b c day) = Ok t.
Proof.
  intros Hpos k. induction k as [|k IH]; intros [[b c] day] Hv Hspan.
  - destruct Hspan as [Hk _]. lia.
  - destruct Hv as (Hb & bk & Hi & Hc & Hday & Hcap).
    cbn beta iota.
    destruct (Z.le_gt_cases (c + day - 1) (chapters bk)) as [Hin | Hout].
    + eexists. exact (text_within k meta b c day bk Hi Hin).
    + rewrite (text_rollover k meta b c day bk Hi Hout).
      assert (Hcall : rec_call meta (b, c, day)
                        (b + 1, 1, day - (chapters bk - c) - 1))
        by (constructor; [assumption | lia | lia]).
      assert (Hv : valid_call meta (b, c, day)).
      { split; [assumption |]. exists bk. auto. }
      destruct (rec_call_valid meta _ _ Hpos Hv Hcall) as [Hv' _].
      destruct Hspan as [_ Hspan].
      rewrite (from_cursor_index meta b bk Hb Hi) in Hspan.
      cbn [firstn] in Hspan. rewrite total_capacity_cons in Hspan.
      destruct (IH (b + 1, 1, day - (chapters bk - c) - 1) Hv') as [t Ht].
      { split; [| lia]. destruct k; [| lia].
        change (total_capacity (firstn 0 (from_cursor meta (b + 1)))) with 0
          in Hspan. lia. }
      cbn beta iota in Ht. rewrite Ht. cbn [bind]. eexists. reflexivity.
Qed.

(** Every call reached by the recursion from a call within the contract is
    within the contract. *)
Lemma reachable_valid (meta : list book) (a a1 : call) :
  positive_capacities meta ->
  valid_call meta a ->
  clos_refl_trans_1n call (rec_call meta) a a1 ->
  valid_call meta a1.
Proof.
  intros Hpos Hv Hreach. induction Hreach as [|a a2 a1 Hstep _ IH].
  - assumption.
  - apply IH. now destruct (rec_call_valid meta a a2 Hpos Hv Hstep).
Qed.

(** A call within the contract spans no more than the containers from the
    cursor onward, and returns a text. *)
Lemma valid_call_spans (meta : list book) (b p remaining : Z) :
  valid_call meta (b, p, remaining) ->
  spans_at_most meta (b, p, remaining) (List.length (from_cursor meta b)).
Proof.
  intros (Hb & bk & Hi & Hc & Hday & Hcap). split.
  - rewrite (from_cursor_index meta b bk Hb Hi). cbn. lia.
  - rewrite firstn_all. pose proof (total_capacity_cursor meta b).
    unfold consumed in Hcap. lia.
Qed.

Lemma valid_call_returns (meta : list book) (b p remaining : Z) :
  positive_capacities meta ->
  valid_call meta (b, p, remaining) ->
  exists t, get_day_reading_text meta b p remaining = Ok t.
Proof.
  intros Hpos Hv.
  destruct (text_within_span meta Hpos _ (b, p, remaining) Hv
              (valid_call_spans meta b p remaining Hv)) as [t Ht].
  exists t. eapply text_fuel_enough. exact Ht.
Qed.

(** C8. Describe termination: for a position within the current container
    and a positive quota that is at most the capacity remaining from the
    cursor onward (capacities being positive), the call returns a text;
    every recursive call of the recursion has a strictly smaller remaining
    quota; and as many nested activations as the quota spans containers
    are enough, which is never more than the containers from the cursor
    onward. *)
Theorem describe_terminates (meta : list book) (b p remaining : Z) :
  positive_capacities meta ->
  valid_call meta (b, p, remaining) ->
  (exists t, get_day_reading_text meta b p remaining = Ok t)
  /\ (forall a1 a2,
         clos_refl_trans_1n call (rec_call meta) (b, p, remaining) a1 ->
         rec_call meta a1 a2 -> snd a2 < snd a1)
  /\ (forall k, spans_at_most meta (b, p, remaining) k ->
         exists t, get_day_reading_text_fuel k meta b p remaining = Ok t)
  /\ spans_at_most meta (b, p, remaining) (List.length (from_cursor meta b)).
Proof.
  intros Hpos Hv.
  assert (Hall : forall k, spans_at_most meta (b, p, remaining) k ->
            exists t, get_day_reading_text_fuel k meta b p remaining = Ok t).
  { intros k Hk. exact (text_within_span meta Hpos k (b, p, remaining) Hv Hk). }
  split; [| split; [| split]].
  - now apply valid_call_returns.
  - intros a1 a2 Hreach Hstep.
    pose proof (reachable_valid meta _ _ Hpos Hv Hreach) as Hv1.
    now destruct (rec_call_valid meta a1 a2 Hpos Hv1 Hstep).
  - exact Hall.
  - now apply valid_call_spans.
Qed.

(** ** The cursor *)

(** The [while] loop of [generate_plan] normalizes a cursor that points at
    an existing unit: it stops at the container that holds the unit, and
    the units consumed are the same. *)
Lemma advance_while_normalizes (meta : list book) :
  positive_capacities meta ->
  forall (tl : list book) (b : Z) (cb : book) (c : Z) (fuel : nat),
    0 <= b ->
    from_cursor meta b = cb :: tl ->
    1 <= c ->
    c - 1 < total_capacity (cb :: tl) ->
    (List.length tl <= fuel)%nat ->
    exists b' cb' c',
      advance_while fuel meta b cb c = Ok (b', cb', c')
      /\ b <= b'
      /\ index meta b' = Ok cb'
      /\ 1 <= c' <= chapters cb'
      /\ consumed meta b' c' = consumed meta b c.
Proof.
  intros Hpos tl.
  induction tl as [|cb' tl IH]; intros b cb c fuel Hb Hfrom Hc Hunit Hfuel.
  - rewrite total_capacity_cons in Hunit.
    change (total_capacity []) with 0 in Hunit.
    exists b, cb, c.
    assert (Hi : index meta b = Ok cb) by (eapply index_from_cursor; eauto).
    destruct fuel; cbn [advance_while];
      replace (c >? chapters cb) with false by lia;
      repeat split; auto; lia.
  - assert (Hi : index meta b = Ok cb) by (eapply index_from_cursor; eauto).
    destruct (Z.le_gt_cases c (chapters cb)) as [Hin | Hout].
    + exists b, cb, c.
      destruct fuel; cbn [advance_while];
        replace (c >? chapters cb) with false by lia;
        repeat split; auto; lia.
    + destruct fuel as [|fuel]; [cbn in Hfuel; lia |].
      assert (Hnext : from_cursor meta (b + 1) = cb' :: tl).
      { pose proof (from_cursor_index meta b cb Hb Hi) as E.
        rewrite Hfrom in E. injection E as E. now symmetry. }
      assert (Hi' : index meta (b + 1) = Ok cb')
        by (eapply index_from_cursor; [lia | eassumption]).
      rewrite total_capacity_cons in Hunit.
      destruct (IH (b + 1) cb' (c - chapters cb) fuel)
        as (b2 & cb2 & c2 & Hrun & Hle & Hi2 & Hc2 & Hcons);
        try lia; try assumption.
      { cbn in Hfuel. lia. }
      exists b2, cb2, c2.
      cbn [advance_while]. replace (c >? chapters cb) with true by lia.
      rewrite Hi'. cbn [bind]. rewrite Hrun.
      repeat split; auto; try lia.
      rewrite Hcons. unfold consumed.
      rewrite (units_before_succ meta b cb Hb Hi). lia.
Qed.

(** The bound on the passes of the cursor loop is enough, whatever the
    arguments. *)
Lemma advance_while_total (meta : list book) (fuel : nat) (b : Z) (cb : book)
    (c : Z) :
  (depth_bound meta b <= fuel)%nat ->
  advance_while fuel meta b cb c <> OutOfFuel.
Proof.
  unfold depth_bound.
  revert b cb c. induction fuel as [|fuel IH]; intros b cb c Hf; [lia |].
  cbn [advance_while]. destruct (c >? chapters cb); [| discriminate].
  destruct (index meta (b + 1)) as [bk | e |] eqn:Hi; cbn [bind].
  - apply index_in_range in Hi. apply IH. lia.
  - discriminate.
  - unfold index in Hi.
    repeat match type of Hi with
           | (if ?x then _ else _) = _ => destruct x
           | match ?x with _ => _ end = _ => destruct x
           end; discriminate.
Qed.

(** ** The plan loop *)

Section PlanFacts.

Context {date : Type} `{DateLike date}.

(** What a pass of the loop does to the rows and to the date. *)
Lemma plan_day_row (meta : list book) (len : Z) (st st' : St.t date)
    (i day : Z) :
  plan_day meta len st i day = Ok st' ->
  exists text,
    get_day_reading_text meta (St.b st) (St.curr_chapter st) day = Ok text
    /\ St.w st' = St.w st ++ [(strftime (St.curr_day st), text)]
    /\ St.curr_day st'
       = (if i =? len - 1 then St.curr_day st
          else add_one_day (St.curr_day st)).
Proof.
  unfold plan_day. intros Hrun.
  destruct (get_day_reading_text meta (St.b st) (St.curr_chapter st) day)
    as [text | e |]; cbn [bind] in Hrun; try discriminate.
  exists text. split; [reflexivity |].
  destruct (i =? len - 1); cbn [negb] in Hrun.
  - injection Hrun as <-. now split.
  - destruct (advance_while _ meta _ _ _) as [[[b' cb'] c'] | e |];
      cbn [bind] in Hrun; try discriminate.
    injection Hrun as <-. now split.
Qed.

(** A pass of the loop from a cursor that points at an existing unit,
    for a positive quota within the capacity that remains; when the day
    is not the last, one more unit must remain after it. *)
Lemma plan_day_ok (meta : list book) (len : Z) (st : St.t date) (i day : Z) :
  positive_capacities meta ->
  cursor_ok meta st ->
  1 <= day ->
  consumed_at meta st + day + (if i =? len - 1 then 0 else 1)
    <= total_capacity meta ->
  exists st',
    plan_day meta len st i day = Ok st'
    /\ cursor_ok meta st'
    /\ St.b st <= St.b st'
    /\ consumed_at meta st'
       = (if i =? len - 1 then consumed_at meta st
          else consumed_at meta st + day).
Proof.
  intros Hpos (Hb & Hi & Hc) Hday Hcap. unfold consumed_at in *.
  destruct (valid_call_returns meta (St.b st) (St.curr_chapter st) day Hpos)
    as [text Htext].
  { split; [assumption |]. exists (St.curr_book st).
    repeat split; try assumption; try lia.
    destruct (i =? len - 1); lia. }
  unfold plan_day. rewrite Htext. cbn [bind].
  destruct (i =? len - 1); cbn [negb].
  - eexists. split; [reflexivity |].
    unfold cursor_ok. cbn [St.b St.curr_book St.curr_chapter].
    repeat split; auto; lia.
  - pose proof (from_cursor_index meta _ _ Hb Hi) as Hfrom.
    pose proof (total_capacity_cursor meta (St.b st)) as Htot.
    rewrite Hfrom in Htot.
    destruct (advance_while_normalizes meta Hpos _ (St.b st) (St.curr_book st)
                (St.curr_chapter st + day) (depth_bound meta (St.b st))
                Hb Hfrom)
      as (b' & cb' & c' & Hrun & Hle & Hi' & Hc' & Hcons).
    + lia.
    + unfold consumed in Hcap. lia.
    + rewrite (depth_bound_from_cursor meta _ Hb), Hfrom. cbn. lia.
    + rewrite Hrun. cbn [bind]. eexists. split; [reflexivity |].
      unfold cursor_ok. cbn [St.b St.curr_book St.curr_chapter].
      repeat split; auto; try lia.
      rewrite Hcons. unfold consumed. lia.
Qed.

End PlanFacts.

Lemma sum_positive (l : list Z) :
  positive_quotas l -> Z.of_nat (List.length l) <= sum l.
Proof.
  induction 1 as [|q l Hq _ IH]; [cbn; lia |].
  change (sum (q :: l)) with (q + sum l). cbn [List.length]. lia.
Qed.

Section PlanLoop.

Context {date : Type} `{DateLike date}.

(** The loop from a cursor that points at an existing unit, over
    positive quotas within the capacity that remains: every pass
    succeeds, every row is the description of its day, and the cursor
    has consumed the quotas of the days that were not the last. *)
Lemma plan_for_ok (meta : list book) (len : Z) :
  positive_capacities meta ->
  forall (days : list Z) (st : St.t date) (i : Z),
    cursor_ok meta st ->
    positive_quotas days ->
    i + Z.of_nat (List.length days) <= len ->
    consumed_at meta st + sum days
      + (if i + Z.of_nat (List.length days) =? len then 0 else 1)
      <= total_capacity meta ->
    exists st' rows,
      plan_for meta len st i days = Ok st'
      /\ cursor_ok meta st'
      /\ St.b st <= St.b st'
      /\ St.w st' = St.w st ++ rows
      /\ Forall2 (described meta) days rows
      /\ (i + Z.of_nat (List.length days) < len ->
          consumed_at meta st' = consumed_at meta st + sum days).
Proof.
  intros Hpos days.
  induction days as [|day rest IH]; intros st i Hok Hq Hlen Hcap.
  - exists st, []. cbn [plan_for]. rewrite app_nil_r.
    change (sum []) with 0.
    split; [reflexivity |]. split; [assumption |]. split; [lia |].
    split; [reflexivity |]. split; [constructor | lia].
  - inversion Hq as [|? ? Hday Hrest]; subst.
    pose proof (sum_positive rest Hrest) as Hsum.
    change (sum (day :: rest)) with (day + sum rest) in *.
    cbn [List.length] in *.
    destruct (plan_day_ok meta len st i day Hpos Hok ltac:(lia))
      as (st1 & Hrun & Hok1 & Hb1 & Hcons1).
    { destruct (Z.eqb_spec i (len - 1)) as [E | E].
      - destruct (Z.eqb_spec (i + Z.of_nat (S (List.length rest))) len); lia.
      - destruct (Z.eqb_spec (i + Z.of_nat (S (List.length rest))) len); lia. }
    destruct (plan_day_row meta len st st1 i day Hrun)
      as (text & Htext & Hw1 & _).
    destruct (IH st1 (i + 1) Hok1 Hrest ltac:(lia))
      as (st' & rows & Hrun' & Hok' & Hb' & Hw' & Hrows & Hcons').
    { rewrite Hcons1.
      replace (i + 1 + Z.of_nat (List.length rest))
        with (i + Z.of_nat (S (List.length rest))) by lia.
      destruct (Z.eqb_spec i (len - 1)) as [E | E];
        destruct (Z.eqb_spec (i + Z.of_nat (S (List.length rest))) len); lia. }
    exists st', ((strftime (St.curr_day st), text) :: rows).
    cbn [plan_for]. rewrite Hrun. cbn [bind]. rewrite Hrun'.
    split; [reflexivity |]. split; [assumption |]. split; [lia |].
    split; [rewrite Hw', Hw1, <- app_assoc; reflexivity |].
    split.
    + constructor; [| assumption].
      destruct Hok as (Hb & Hi & Hc).
      exists (St.b st), (St.curr_chapter st), (St.curr_book st).
      repeat split; auto; lia.
    + intros Hlt. rewrite Hcons' by lia. rewrite Hcons1.
      replace (i =? len - 1) with false by lia. lia.
Qed.

(** The dates of the rows: each row but the first is dated the day after
    the row before it. *)
Lemma plan_for_dates (meta : list book) (len : Z) :
  forall (days : list Z) (st st' : St.t date) (i : Z),
    i + Z.of_nat (List.length days) <= len ->
    plan_for meta len st i days = Ok st' ->
    List.map fst (St.w st')
    = List.map fst (St.w st)
      ++ List.map (fun k => strftime (Nat.iter k add_one_day (St.curr_day st)))
                  (seq 0 (List.length days)).
Proof.
  induction days as [|day rest IH]; intros st st' i Hlen Hrun.
  - cbn [plan_for] in Hrun. injection Hrun as <-. cbn. now rewrite app_nil_r.
  - cbn [plan_for] in Hrun.
    destruct (plan_day meta len st i day) as [st1 | e |] eqn:Hday;
      cbn [bind] in Hrun; try discriminate.
    destruct (plan_day_row meta len st st1 i day Hday)
      as (text & _ & Hw1 & Hd1).
    cbn [List.length] in *.
    rewrite (IH st1 st' (i + 1) ltac:(lia) Hrun), Hw1, map_app, <- app_assoc.
    f_equal. cbn [List.map fst app seq Nat.iter nat_rect]. f_equal.
    destruct rest as [|day' rest']; [reflexivity |].
    cbn [List.length] in Hlen.
    rewrite Hd1. replace (i =? len - 1) with false by lia.
    rewrite <- seq_shift, map_map. apply map_ext. intros k.
    now rewrite Nat.iter_succ_r.
Qed.

End PlanLoop.

(** ** Rendering *)

Lemma map_const_repeat {A B : Type} (b : B) (l : list A) :
  List.map (fun _ => b) l = repeat b (List.length l).
Proof.
  induction l as [|a l IH]; [reflexivity |]. cbn. now rewrite IH.
Qed.


Section Rendering.

Context {date : Type} `{DateLike date}.

Lemma plan_for_app (meta : list book) (len : Z) (l1 l2 : list Z) :
  forall (st : St.t date) (i : Z),
    plan_for meta len st i (l1 ++ l2)
    = (st1 <- plan_for meta len st i l1 ;;
       plan_for meta len st1 (i + Z.of_nat (List.length l1)) l2).
Proof.
  induction l1 as [|day l1 IH]; intros st i.
  - cbn. now rewrite Z.add_0_r.
  - cbn [app plan_for]. destruct (plan_day meta len st i day); cbn [bind];
      try reflexivity.
    rewrite IH. cbn [List.length].
    now replace (i + 1 + Z.of_nat (List.length l1))
      with (i + Z.of_nat (S (List.length l1))) by lia.
Qed.

(** The state before a day is a state of the run of [write_plan]: the
    run goes on from it with the days that remain. *)
Lemma write_plan_from_day (meta : list book) (quotas : list Z) (start : date)
    (j : nat) :
  write_plan meta quotas start
  = (st <- state_before_day meta quotas start j ;;
     plan_for meta (Z.of_nat (List.length quotas)) st
              (Z.of_nat (List.length (firstn j quotas))) (skipn j quotas)).
Proof.
  unfold write_plan, state_before_day.
  destruct (index meta 0) as [bk | e |]; cbn [bind]; try reflexivity.
  rewrite <- (firstn_skipn j quotas) at 2. now rewrite plan_for_app.
Qed.

(** The start state of a rendering of a non-empty sequence of containers
    of positive capacity. *)
Lemma start_state_ok (meta : list book) (start : date) :
  meta <> [] -> positive_capacities meta ->
  exists bk,
    index meta 0 = Ok bk
    /\ cursor_ok meta (St.Make [] 0 start bk 1)
    /\ consumed_at meta (St.Make [] 0 start bk 1) = 0.
Proof.
  intros Hne Hpos. destruct meta as [|bk tl]; [congruence |].
  exists bk. inversion Hpos; subst.
  split; [reflexivity |]. split.
  - unfold cursor_ok. cbn [St.b St.curr_book St.curr_chapter].
    repeat split; try lia.
  - reflexivity.
Qed.

Lemma write_plan_ok (meta : list book) (quotas : list Z) (start : date) :
  meta <> [] -> positive_capacities meta -> positive_quotas quotas ->
  sum quotas <= total_capacity meta ->
  exists st,
    write_plan meta quotas start = Ok st
    /\ cursor_ok meta st
    /\ Forall2 (described meta) quotas (St.w st).
Proof.
  intros Hne Hpos Hq Hcap.
  destruct (start_state_ok meta start Hne Hpos) as (bk & Hi & Hok & Hcons).
  destruct (plan_for_ok meta (Z.of_nat (List.length quotas)) Hpos quotas
              (St.Make [] 0 start bk 1) 0 Hok Hq ltac:(lia))
    as (st & rows & Hrun & Hok' & _ & Hw & Hrows & _).
  { rewrite Hcons. cbn [Z.add]. rewrite Z.eqb_refl. lia. }
  exists st. unfold write_plan. rewrite Hi. cbn [bind].
  cbn [St.w app] in Hw. rewrite Hw. auto.
Qed.

End Rendering.

Lemma describe_terminates_witness :
  (exists t, get_day_reading_text alpha_beta 0 5 4 = Ok t)
  /\ (forall a1 a2,
         clos_refl_trans_1n call (rec_call alpha_beta) (0, 5, 4) a1 ->
         rec_call alpha_beta a1 a2 -> snd a2 < snd a1)
  /\ (forall k, spans_at_most alpha_beta (0, 5, 4) k ->
         exists t, get_day_reading_text_fuel k alpha_beta 0 5 4 = Ok t)
  /\ spans_at_most alpha_beta (0, 5, 4)
                   (List.length (from_cursor alpha_beta 0)).
Proof.
  apply (describe_terminates alpha_beta 0 5 4).
  - repeat constructor.
  - split; [lia |]. exists (Book "Alpha" 5 120).
    split; [reflexivity |]. cbn. lia.
Defined.

(** C3. The render example: for the containers Alpha (capacity 5) and Beta
    (capacity 3) and the quotas 4, 2, 2 there are three day entries, with
    the texts "Alpha 1-4", "Alpha 5; Beta 1" and "Beta 2-3"; the cursor is
    not advanced after the last day, so it is left at container 1,
    position 2, with 6 units consumed, and the last day's quota of 2 ends
    at unit 8, the total capacity. *)
Theorem render_example {date : Type} `{DateLike date} (start : date) :
  exists st,
    write_plan alpha_beta [4; 2; 2] start = Ok st
    /\ List.length (St.w st) = 3%nat
    /\ List.map snd (St.w st) = ["Alpha 1-4"; "Alpha 5; Beta 1"; "Beta 2-3"]
    /\ St.b st = 1 /\ St.curr_chapter st = 2
    /\ consumed_at alpha_beta st = 6
    /\ consumed_at alpha_beta st + 2 = total_capacity alpha_beta
    /\ total_capacity alpha_beta = 8.
Proof.
  eexists. split; [vm_compute; reflexivity |].
  repeat split.
Qed.

(** The final cursor of the example has consumed 6 units, not 8. *)
Lemma render_example_final_cursor :
  ~ render_example_claim (Gregorian.Date 2021 1 1).
Proof.
  intros (st & Hrun & _ & Hcons).
  vm_compute in Hrun. injection Hrun as <-.
  vm_compute in Hcons. discriminate.
Qed.

(** C4. In-bounds rendering: for a non-empty sequence of containers of
    positive capacity and a non-empty sequence of positive quotas whose sum
    is at most the capacity, the rendering raises no index error: it
    returns, with one row per quota, every row described from a cursor
    whose container index is within the sequence, and the final container
    index is within the sequence. *)
Theorem render_in_bounds {date : Type} `{DateLike date}
    (meta : list book) (quotas : list Z) (start : date) :
  renderable meta quotas ->
  exists st,
    write_plan meta quotas start = Ok st
    /\ List.length (St.w st) = List.length quotas
    /\ Forall2 (described meta) quotas (St.w st)
    /\ 0 <= St.b st < Z.of_nat (List.length meta).
Proof.
  intros (Hne & Hpos & _ & Hq & Hcap).
  destruct (write_plan_ok meta quotas start Hne Hpos Hq Hcap)
    as (st & Hrun & (Hb & Hi & _) & Hrows).
  exists st. split; [assumption |].
  split; [symmetry; eapply Forall2_length; eassumption |].
  split; [assumption |].
  apply index_in_range in Hi. lia.
Qed.

Lemma render_in_bounds_witness :
  exists st,
    write_plan alpha_beta [4; 2; 2] (Gregorian.Date 2021 1 1) = Ok st
    /\ List.length (St.w st) = List.length [4; 2; 2]
    /\ Forall2 (described alpha_beta) [4; 2; 2] (St.w st)
    /\ 0 <= St.b st < Z.of_nat (List.length alpha_beta).
Proof.
  apply (render_in_bounds alpha_beta [4; 2; 2] (Gregorian.Date 2021 1 1)).
  unfold renderable.
  split; [discriminate |]. split; [repeat constructor |].
  split; [discriminate |]. split; [repeat constructor |].
  vm_compute. discriminate.
Defined.

(** [split] raises exactly when there are fewer units than parts. *)
Lemma split_raises_iff (total parts : Z) :
  1 <= parts -> (split total parts = Raise ValueError <-> total < parts).
Proof.
  intros Hn. split.
  - intros Hraise. destruct (Z.lt_ge_cases total parts) as [Hlt | Hge];
      [assumption |].
    destruct (Z.eq_dec (total mod parts) 0) as [Hr | Hr].
    + rewrite split_even in Hraise by assumption. discriminate.
    + rewrite split_uneven in Hraise by assumption. discriminate.
  - intros Hlt. unfold split, split_fuel.
    now replace (total <? parts) with true by lia.
Qed.

Lemma described_single_unit (meta : list book) (row : string * string) :
  described meta 1 row -> single_unit_row meta row.
Proof.
  intros (b & c & bk & Hb & Hi & Hc & Htext).
  exists bk, c. split; [eapply index_In; eassumption |].
  pose proof (text_within 0 meta b c 1 bk Hi ltac:(lia)) as Hone.
  apply text_fuel_enough in Hone. rewrite Htext in Hone.
  now injection Hone.
Qed.

Lemma Forall2_repeat_l {A B : Type} (R : A -> B -> Prop) (a : A) (k : nat)
    (l : list B) :
  Forall2 R (repeat a k) l -> Forall (R a) l /\ List.length l = k.
Proof.
  revert l. induction k as [|k IH]; intros l Hl; inversion Hl; subst.
  - now split.
  - destruct (IH _ H3) as [Hall Hlen]. split; [now constructor |].
    cbn. now rewrite Hlen.
Qed.

Section Fallback.

Context {date : Type} `{DateLike date}.

(** C5. Infeasible partition and fallback: for [parts >= 1], [split]
    raises the infeasible-partition error exactly when [total < parts];
    [generate_plan] then plans one unit per day for [total] days: it
    returns [total] day entries, each the text of a single unit. *)
Theorem infeasible_partition_fallback (meta : list book) (total parts : Z)
    (start : date) (write : bool) :
  1 <= parts ->
  (forall x, split x parts = Raise ValueError <-> x < parts)
  /\ (0 <= total < parts ->
      meta <> [] -> positive_capacities meta ->
      total <= total_capacity meta ->
      chapters_per_day_of total parts = Ok (repeat 1 (Z.to_nat total))
      /\ exists p,
          generate_plan meta parts start total write = Ok p
          /\ Z.of_nat (List.length (plan_rows p)) = total
          /\ Forall (single_unit_row meta) (plan_rows p)).
Proof.
  intros Hn. split; [intros x; now apply split_raises_iff |].
  intros Htot Hne Hpos Hcap.
  assert (Hq : chapters_per_day_of total parts
               = Ok (repeat 1 (Z.to_nat total))).
  { unfold chapters_per_day_of.
    rewrite (proj2 (split_raises_iff total parts Hn)) by lia.
    unfold range. now rewrite map_const_repeat, length_map, length_seq. }
  split; [exact Hq |].
  destruct (write_plan_ok meta (repeat 1 (Z.to_nat total)) start Hne Hpos)
    as (st & Hrun & _ & Hrows).
  { apply Forall_repeat. lia. }
  { rewrite sum_repeat. lia. }
  apply Forall2_repeat_l in Hrows. destruct Hrows as [Hall Hlen].
  assert (Hsingle : Forall (single_unit_row meta) (St.w st)).
  { eapply Forall_impl; [| exact Hall]. apply described_single_unit. }
  unfold generate_plan. rewrite Hq. cbn [bind]. rewrite Hrun. cbn [bind].
  destruct write; eexists; (split; [reflexivity |]); cbn [plan_rows];
    (split; [lia | assumption]).
Qed.

End Fallback.

Lemma infeasible_partition_fallback_witness :
  (forall x, split x 9 = Raise ValueError <-> x < 9)
  /\ chapters_per_day_of 8 9 = Ok (repeat 1 (Z.to_nat 8))
  /\ exists p,
      generate_plan alpha_beta 9 (Gregorian.Date 2021 1 1) 8 false = Ok p
      /\ Z.of_nat (List.length (plan_rows p)) = 8
      /\ Forall (single_unit_row alpha_beta) (plan_rows p).
Proof.
  destruct (infeasible_partition_fallback
              alpha_beta 8 9 (Gregorian.Date 2021 1 1) false ltac:(lia))
    as [Hiff Hplan].
  split; [exact Hiff |].
  apply Hplan.
  - lia.
  - discriminate.
  - repeat constructor.
  - vm_compute. discriminate.
Defined.

(** ** Dates and the cursor across days *)

Lemma nth_map_seq {B : Type} (f : nat -> B) (n i : nat) (d : B) :
  (i < n)%nat -> nth i (List.map f (seq 0 n)) d = f i.
Proof.
  intros Hi. rewrite (nth_indep _ d (f 0%nat))
    by (now rewrite length_map, length_seq).
  rewrite map_nth, seq_nth by assumption. reflexivity.
Qed.

Lemma positive_quotas_app (l1 l2 : list Z) :
  positive_quotas (l1 ++ l2) <-> positive_quotas l1 /\ positive_quotas l2.
Proof. apply Forall_app. Qed.

Lemma sum_firstn_skipn (j : nat) (l : list Z) :
  sum l = sum (firstn j l) + sum (skipn j l).
Proof. now rewrite <- sum_app, firstn_skipn. Qed.

(** Before a day of the plan, at least one unit of quota remains. *)
Lemma prefix_sum_bound (quotas : list Z) (j : nat) :
  positive_quotas quotas -> (j < List.length quotas)%nat ->
  positive_quotas (firstn j quotas)
  /\ sum (firstn j quotas) + 1 <= sum quotas.
Proof.
  intros Hq Hj. rewrite <- (firstn_skipn j quotas) in Hq.
  apply positive_quotas_app in Hq. destruct Hq as [Hq1 Hq2].
  split; [assumption |].
  rewrite (sum_firstn_skipn j quotas).
  pose proof (sum_positive _ Hq2) as Hs. rewrite length_skipn in Hs. lia.
Qed.

Section AcrossDays.

Context {date : Type} `{DateLike date}.

(** C9. Dates of the plan: [generate_plan] has no flag for the calendar;
    its boolean [write] only chooses where the rows go.  The date
    advances by one day after every day but the last, whatever [write]
    is, so the entries have consecutive dates from the start date. *)
Theorem plan_dates_consecutive (meta : list book) (duration : Z)
    (start : date) (chapters : Z) (write : bool) (p : plan_csv) :
  generate_plan meta duration start chapters write = Ok p ->
  (forall i, (i < List.length (plan_rows p))%nat ->
     nth i (List.map fst (plan_rows p)) ""
     = strftime (Nat.iter i add_one_day start))
  /\ (exists p',
        generate_plan meta duration start chapters (negb write) = Ok p'
        /\ plan_rows p' = plan_rows p).
Proof.
  unfold generate_plan. intros Hrun.
  destruct (chapters_per_day_of chapters duration) as [quotas | e |];
    cbn [bind] in *; try discriminate.
  destruct (write_plan meta quotas start) as [st | e |] eqn:Hplan;
    cbn [bind] in *; try discriminate.
  assert (Hrows : plan_rows p = St.w st)
    by (destruct write; injection Hrun as <-; reflexivity).
  split.
  - rewrite Hrows. unfold write_plan in Hplan.
    destruct (index meta 0) as [bk | e |]; cbn [bind] in Hplan;
      try discriminate.
    apply plan_for_dates in Hplan; [| lia].
    cbn [St.w St.curr_day List.map app] in Hplan.
    intros i Hi. rewrite Hplan.
    apply (nth_map_seq (fun k => strftime (Nat.iter k add_one_day start))).
    rewrite <- (length_map fst), Hplan, length_map, length_seq in Hi.
    exact Hi.
  - destruct write; cbn [negb]; eexists; (split; [reflexivity |]);
      now rewrite Hrows.
Qed.

(** The state before a day of a rendering within the contract. *)
Lemma state_before_day_ok (meta : list book) (quotas : list Z) (start : date)
    (j : nat) :
  renderable meta quotas ->
  (j < List.length quotas)%nat ->
  exists bk st,
    index meta 0 = Ok bk
    /\ plan_for meta (Z.of_nat (List.length quotas))
                (St.Make [] 0 start bk 1) 0 (firstn j quotas) = Ok st
    /\ cursor_ok meta st
    /\ consumed_at meta st = sum (firstn j quotas).
Proof.
  intros (Hne & Hpos & _ & Hq & Hcap) Hj.
  destruct (start_state_ok meta start Hne Hpos) as (bk & Hi & Hok & Hcons).
  destruct (prefix_sum_bound quotas j Hq Hj) as [Hq1 Hsum].
  assert (Hlen : List.length (firstn j quotas) = j)
    by (rewrite length_firstn; lia).
  destruct (plan_for_ok meta (Z.of_nat (List.length quotas)) Hpos
              (firstn j quotas) (St.Make [] 0 start bk 1) 0 Hok Hq1)
    as (st & rows & Hrun & Hok' & _ & _ & _ & Hcons').
  { rewrite Hlen. lia. }
  { rewrite Hcons, Hlen.
    replace (0 + Z.of_nat j =? Z.of_nat (List.length quotas)) with false
      by lia.
    lia. }
  exists bk, st. repeat split; try assumption; try apply Hok'.
  rewrite Hcons' by (rewrite Hlen; lia). lia.
Qed.


End AcrossDays.

(** The boolean of [generate_plan] does not stop the calendar. *)
Lemma calendar_advances_without_flag : ~ advance_calendar_claim.
Proof.
  intros Hclaim.
  specialize (Hclaim [Book "Alpha" 2 50] 2 (Gregorian.Date 2021 1 1) 2 false
                     _ eq_refl 1%nat).
  vm_compute in Hclaim. specialize (Hclaim (le_n 2)). discriminate.
Qed.

Lemma plan_dates_consecutive_witness :
  (forall i, (i < 3)%nat ->
     nth i ["01/01/2021"; "01/02/2021"; "01/03/2021"] ""
     = strftime (Nat.iter i add_one_day (Gregorian.Date 2021 1 1)))
  /\ (exists p',
        generate_plan alpha_beta 3 (Gregorian.Date 2021 1 1) 8 true = Ok p'
        /\ plan_rows p'
           = [("01/01/2021", "Alpha 1-2"); ("01/02/2021", "Alpha 3-5");
              ("01/03/2021", "Beta 1-3")]).
Proof.
  exact (plan_dates_consecutive alpha_beta 3 (Gregorian.Date 2021 1 1) 8 false
           _ eq_refl).
Defined.



(** * Further properties of the code *)

(** ** [split] outside its contract *)

Lemma split_no_parts (total parts : Z) :
  parts <= 0 ->
  split total parts
  = (if total <? parts then Raise ValueError
     else if parts =? 0 then Raise ZeroDivisionError
     else Ok []).
Proof.
  intros Hn. unfold split, split_fuel, mod_, floordiv, int_truediv, gcd.
  destruct (total <? parts); [reflexivity |].
  destruct (Z.eqb_spec parts 0) as [-> | Hn0]; [reflexivity |].
  cbn [bind]. replace (Z.to_nat parts) with 0%nat by lia.
  destruct (Z.eqb_spec (total mod parts) 0) as [Hr | Hr].
  { cbn [bind]. rewrite for_range_app.
    now replace (Z.to_nat parts) with 0%nat by lia. }
  replace (parts - (parts - total mod parts)) with (total mod parts) by lia.
  set (cd := if _ >? _ then _ else _).
  assert (Hcd : cd <> 0).
  { subst cd. destruct (_ >? _); intros E.
    - apply Z.gcd_eq_0_l in E. contradiction.
    - apply Z.gcd_eq_0_r in E. contradiction. }
  replace (cd =? 0) with false by lia. cbn [bind].
  apply split_while_done. lia.
Qed.

(** X1. With no part to make, and a number of parts within the range
    where the float division of [split] is exact, [split] fails only on
    the comparison or on the modulus: fewer units than parts is the
    infeasible partition, zero parts is a division by zero, and a
    negative number of parts gives the empty list. *)
Theorem split_nonpositive_parts (total parts : Z) :
  - exact_int_bound <= parts -> parts <= 0 ->
  split total parts
  = (if total <? parts then Raise ValueError
     else if parts =? 0 then Raise ZeroDivisionError
     else Ok []).
Proof. intros _. exact (split_no_parts total parts). Qed.

Lemma split_nonpositive_parts_witness :
  split 5 (-2) = Ok [] /\ split 5 0 = Raise ZeroDivisionError
  /\ split (-5) (-2) = Raise ValueError.
Proof.
  split; [| split].
  - exact (split_nonpositive_parts 5 (-2) ltac:(vm_compute; discriminate)
             ltac:(lia)).
  - exact (split_nonpositive_parts 5 0 ltac:(vm_compute; discriminate)
             ltac:(lia)).
  - exact (split_nonpositive_parts (-5) (-2) ltac:(vm_compute; discriminate)
             ltac:(lia)).
Defined.

(** ** The text of a day *)

Lemma index_past_end (meta : list book) (b : Z) :
  0 <= b -> from_cursor meta b = [] -> index meta b = Raise IndexError.
Proof.
  intros Hb Hfrom. unfold index. replace (b <? 0) with false by lia.
  assert (Hlen : (List.length meta <= Z.to_nat b)%nat).
  { unfold from_cursor in Hfrom.
    pose proof (length_skipn (Z.to_nat b) meta) as Hl.
    rewrite Hfrom in Hl. cbn in Hl. lia. }
  destruct ((0 <=? b) && (b <? Z.of_nat (List.length meta))) eqn:E;
    [| reflexivity].
  apply andb_true_iff in E. lia.
Qed.

Lemma from_cursor_next (meta : list book) (b : Z) (bk : book) (tl : list book) :
  0 <= b -> from_cursor meta b = bk :: tl -> from_cursor meta (b + 1) = tl.
Proof.
  intros Hb Hfrom.
  pose proof (index_from_cursor meta b bk tl Hb Hfrom) as Hi.
  pose proof (from_cursor_index meta b bk Hb Hi) as E.
  rewrite Hfrom in E. now injection E.
Qed.

(** A quota beyond the capacity that remains runs off the end of the
    container sequence. *)
Lemma text_overrun (meta : list book) :
  positive_capacities meta ->
  forall (tl : list book) (b : Z) (bk : book) (c day : Z) (fuel : nat),
    0 <= b ->
    from_cursor meta b = bk :: tl ->
    1 <= c ->
    total_capacity (bk :: tl) < c - 1 + day ->
    (S (List.length tl) < fuel)%nat ->
    get_day_reading_text_fuel fuel meta b c day = Raise IndexError.
Proof.
  intros Hpos tl.
  induction tl as [|bk' tl IH]; intros b bk c day fuel Hb Hfrom Hc Hover Hfuel;
    (destruct fuel as [|fuel]; [cbn in Hfuel; lia |]);
    pose proof (index_from_cursor meta b bk _ Hb Hfrom) as Hi;
    pose proof (from_cursor_next meta b bk _ Hb Hfrom) as Hnext;
    rewrite total_capacity_cons in Hover.
  - change (total_capacity []) with 0 in Hover.
    rewrite (text_rollover fuel meta b c day bk Hi) by lia.
    destruct fuel as [|fuel]; [cbn in Hfuel; lia |].
    cbn [get_day_reading_text_fuel].
    rewrite (index_past_end meta (b + 1)) by (assumption || lia).
    reflexivity.
  - assert (Hnn : 0 <= total_capacity (bk' :: tl)).
    { apply total_capacity_nonneg. rewrite <- Hnext.
      now apply positive_from_cursor. }
    rewrite (text_rollover fuel meta b c day bk Hi) by lia.
    rewrite (IH (b + 1) bk' 1 (day - (chapters bk - c) - 1) fuel);
      try assumption; try lia.
    + reflexivity.
    + cbn [List.length] in Hfuel. lia.
Qed.

(** X2. A quota larger than the capacity that remains from the cursor
    onward is not truncated: the description raises [IndexError]. *)
Theorem describe_overrun (meta : list book) (b p remaining : Z) (c : book) :
  positive_capacities meta ->
  0 <= b -> index meta b = Ok c -> 1 <= p ->
  total_capacity meta < consumed meta b p + remaining ->
  get_day_reading_text meta b p remaining = Raise IndexError.
Proof.
  intros Hpos Hb Hi Hp Hover.
  pose proof (from_cursor_index meta b c Hb Hi) as Hfrom.
  pose proof (total_capacity_cursor meta b) as Htot. rewrite Hfrom in Htot.
  unfold get_day_reading_text.
  apply (text_overrun meta Hpos _ b c p remaining _ Hb Hfrom Hp).
  - unfold consumed in Hover. lia.
  - rewrite (depth_bound_from_cursor meta b Hb), Hfrom. cbn. lia.
Qed.

Lemma describe_overrun_witness :
  get_day_reading_text alpha_beta 0 5 5 = Raise IndexError.
Proof.
  apply (describe_overrun alpha_beta 0 5 5 (Book "Alpha" 5 120)).
  - repeat constructor.
  - lia.
  - reflexivity.
  - lia.
  - vm_compute. reflexivity.
Defined.

Lemma join_segments_cons (s s' : book * Z * Z) (segs : list (book * Z * Z)) :
  join_segments (s :: s' :: segs)
  = render_segment s ^^ "; " ^^ join_segments (s' :: segs).
Proof. reflexivity. Qed.

Lemma day_segments_within (bk : book) (tl : list book) (c day : Z) :
  c + day - 1 <= chapters bk ->
  day_segments (bk :: tl) c day = [(bk, c, c + day - 1)].
Proof.
  intros Hin. cbn [day_segments].
  now replace (c + day - 1 <=? chapters bk) with true by lia.
Qed.

Lemma day_segments_rollover (bk : book) (tl : list book) (c day : Z) :
  chapters bk < c + day - 1 ->
  day_segments (bk :: tl) c day
  = (bk, c, chapters bk) :: day_segments tl 1 (day - (chapters bk - c) - 1).
Proof.
  intros Hout. cbn [day_segments].
  now replace (c + day - 1 <=? chapters bk) with false by lia.
Qed.

(** The text of a call within the contract, by its segments. *)
Lemma text_segments (meta : list book) :
  positive_capacities meta ->
  forall (tl : list book) (b : Z) (bk : book) (c day : Z),
    0 <= b ->
    from_cursor meta b = bk :: tl ->
    1 <= c <= chapters bk ->
    1 <= day ->
    c - 1 + day <= total_capacity (bk :: tl) ->
    let segs := day_segments (bk :: tl) c day in
    get_day_reading_text_fuel (S (List.length tl)) meta b c day
    = Ok (join_segments segs)
    /\ sum (List.map segment_units segs) = day
    /\ Forall segment_ok segs
    /\ List.map (fun s => fst (fst s)) segs
       = firstn (List.length segs) (bk :: tl)
    /\ (exists q rest, segs = (bk, c, q) :: rest
                       /\ Forall (fun s => snd (fst s) = 1) rest)
    /\ Forall (fun s => snd s = chapters (fst (fst s))) (removelast segs).
Proof.
  intros Hpos tl.
  assert (Hwithin : forall (tl : list book) b bk c day,
             index meta b = Ok bk ->
             1 <= c <= chapters bk -> 1 <= day ->
             c + day - 1 <= chapters bk ->
             let segs := day_segments (bk :: tl) c day in
             get_day_reading_text_fuel (S (List.length tl)) meta b c day
             = Ok (join_segments segs)
             /\ sum (List.map segment_units segs) = day
             /\ Forall segment_ok segs
             /\ List.map (fun s => fst (fst s)) segs
                = firstn (List.length segs) (bk :: tl)
             /\ (exists q rest, segs = (bk, c, q) :: rest
                                /\ Forall (fun s => snd (fst s) = 1) rest)
             /\ Forall (fun s => snd s = chapters (fst (fst s)))
                       (removelast segs)).
  { intros tl0 b bk c day Hi Hc Hday Hin. cbn zeta.
    rewrite (day_segments_within bk tl0 c day Hin).
    rewrite (text_within _ meta b c day bk Hi Hin).
    split; [| split; [| split; [| split; [| split]]]].
    - f_equal. unfold join_segments, render_segment, segment.
      cbn [List.map String.concat].
      destruct (Z.eqb_spec day 1) as [E | E].
      + now replace (c =? c + day - 1) with true by lia.
      + now replace (c =? c + day - 1) with false by lia.
    - cbn. lia.
    - repeat constructor; cbn; lia.
    - reflexivity.
    - exists (c + day - 1), []. split; [reflexivity | constructor].
    - constructor. }
  induction tl as [|bk' tl IH]; intros b bk c day Hb Hfrom Hc Hday Hcap;
    pose proof (index_from_cursor meta b bk _ Hb Hfrom) as Hi;
    pose proof (from_cursor_next meta b bk _ Hb Hfrom) as Hnext;
    rewrite total_capacity_cons in Hcap.
  - change (total_capacity []) with 0 in Hcap.
    apply Hwithin; auto; lia.
  - destruct (Z.le_gt_cases (c + day - 1) (chapters bk)) as [Hin | Hout];
      [apply Hwithin; auto |].
    assert (Hbk' : 0 < chapters bk').
    { assert (Hp' : positive_capacities (bk' :: tl))
        by (rewrite <- Hnext; now apply positive_from_cursor).
      now inversion Hp'. }
    destruct (IH (b + 1) bk' 1 (day - (chapters bk - c) - 1))
      as (Htext & Hsum & Hok & Hmap & (q & rest & Hsegs & Hrest) & Hlast);
      try assumption; try lia.
    cbn zeta in *.
    rewrite (day_segments_rollover bk (bk' :: tl) c day Hout).
    rewrite (text_rollover _ meta b c day bk Hi Hout).
    cbn [List.length] in *. rewrite Htext. cbn [bind].
    set (segs' := day_segments (bk' :: tl) 1 (day - (chapters bk - c) - 1)) in *.
    split; [| split; [| split; [| split; [| split]]]].
    + f_equal. rewrite Hsegs, join_segments_cons, <- Hsegs.
      unfold render_segment at 1. unfold segment.
      destruct (c =? chapters bk); norm_append; reflexivity.
    + cbn [List.map sum fold_right segment_units].
      unfold sum in Hsum. rewrite Hsum. lia.
    + constructor; [cbn; lia | assumption].
    + cbn [List.map List.length firstn fst]. now rewrite Hmap.
    + exists (chapters bk), segs'. split; [reflexivity |].
      rewrite Hsegs. constructor; [reflexivity | assumption].
    + rewrite Hsegs in Hlast |- *.
      change (removelast ((bk, c, chapters bk) :: (bk', 1, q) :: rest))
        with ((bk, c, chapters bk) :: removelast ((bk', 1, q) :: rest)).
      constructor; [reflexivity | assumption].
Qed.

(** X3. The text of a day within the contract is the list of its ranges
    joined with ["; "]: the ranges lie in consecutive containers from the
    cursor's, each within its container; the first starts at the cursor's
    position and the others at unit 1; all but the last end at the last
    unit of their container; and together they hold exactly the quota. *)
Theorem describe_by_segments (meta : list book) (b p remaining : Z) :
  positive_capacities meta ->
  valid_call meta (b, p, remaining) ->
  let segs := day_segments (from_cursor meta b) p remaining in
  get_day_reading_text meta b p remaining = Ok (join_segments segs)
  /\ sum (List.map segment_units segs) = remaining
  /\ Forall segment_ok segs
  /\ List.map (fun s => fst (fst s)) segs
     = firstn (List.length segs) (from_cursor meta b)
  /\ (exists c q rest, index meta b = Ok c /\ segs = (c, p, q) :: rest
                       /\ Forall (fun s => snd (fst s) = 1) rest)
  /\ Forall (fun s => snd s = chapters (fst (fst s))) (removelast segs).
Proof.
  intros Hpos (Hb & bk & Hi & Hc & Hday & Hcap). cbn zeta.
  pose proof (from_cursor_index meta b bk Hb Hi) as Hfrom.
  pose proof (total_capacity_cursor meta b) as Htot.
  rewrite Hfrom in Htot |- *.
  destruct (text_segments meta Hpos _ b bk p remaining Hb Hfrom Hc Hday)
    as (Htext & Hsum & Hok & Hmap & (q & rest & Hsegs & Hrest) & Hlast).
  { unfold consumed in Hcap. lia. }
  split; [now apply text_fuel_enough in Htext |].
  split; [assumption |]. split; [assumption |]. split; [assumption |].
  split; [| assumption].
  exists bk, q, rest. auto.
Qed.

Lemma describe_by_segments_witness :
  get_day_reading_text alpha_beta 0 5 4 = Ok "Alpha 5; Beta 1-3"
  /\ day_segments (from_cursor alpha_beta 0) 5 4
     = [(Book "Alpha" 5 120, 5, 5); (Book "Beta" 3 80, 1, 3)].
Proof.
  destruct (describe_by_segments alpha_beta 0 5 4) as (Htext & _).
  - repeat constructor.
  - split; [lia |]. exists (Book "Alpha" 5 120).
    split; [reflexivity |]. cbn. lia.
  - split; [exact Htext | reflexivity].
Defined.

Section Tiling.

Context {date : Type} `{DateLike date}.

(** The loop only appends rows, one per day. *)
Lemma plan_for_appends (meta : list book) (len : Z) :
  forall (days : list Z) (st st' : St.t date) (i : Z),
    plan_for meta len st i days = Ok st' ->
    exists rows, St.w st' = St.w st ++ rows
                 /\ List.length rows = List.length days.
Proof.
  induction days as [|day rest IH]; intros st st' i Hrun.
  - cbn [plan_for] in Hrun. injection Hrun as <-.
    exists []. now rewrite app_nil_r.
  - cbn [plan_for] in Hrun.
    destruct (plan_day meta len st i day) as [st1 | e |] eqn:Hday;
      cbn [bind] in Hrun; try discriminate.
    destruct (plan_day_row meta len st st1 i day Hday) as (text & _ & Hw1 & _).
    destruct (IH st1 st' (i + 1) Hrun) as (rows & Hw & Hlen).
    exists ((strftime (St.curr_day st), text) :: rows).
    rewrite Hw, Hw1, <- app_assoc. split; [reflexivity |].
    cbn [List.length]. now rewrite Hlen.
Qed.

(** Row [j] of a rendering within the contract, from the state before
    its day. *)
Lemma plan_row_at (meta : list book) (quotas : list Z) (start : date)
    (j : nat) :
  renderable meta quotas ->
  (j < List.length quotas)%nat ->
  exists st_j st row,
    state_before_day meta quotas start j = Ok st_j
    /\ write_plan meta quotas start = Ok st
    /\ consumed_at meta st_j = sum (firstn j quotas)
    /\ nth_error (St.w st) j = Some row
    /\ let segs := day_segments (from_cursor meta (St.b st_j))
                                (St.curr_chapter st_j) (nth j quotas 0) in
       snd row = join_segments segs
       /\ sum (List.map segment_units segs) = nth j quotas 0.
Proof.
  intros Hr Hj.
  destruct (state_before_day_ok meta quotas start j Hr Hj)
    as (bk & st_j & Hi & Hrun_j & Hok & Hcons).
  destruct Hr as (Hne & Hpos & _ & Hq & Hcap).
  destruct (write_plan_ok meta quotas start Hne Hpos Hq Hcap)
    as (st & Hwp & _ & _).
  assert (Hstate : state_before_day meta quotas start j = Ok st_j).
  { unfold state_before_day. rewrite Hi. exact Hrun_j. }
  exists st_j, st.
  pose proof Hwp as Hrun.
  rewrite (write_plan_from_day meta quotas start j), Hstate in Hrun.
  cbn [bind] in Hrun.
  destruct (plan_for_appends meta _ _ _ _ _ Hrun_j) as (rows_j & Hw_j & Hlen_j).
  cbn [St.w app] in Hw_j. rewrite length_firstn in Hlen_j.
  set (later := skipn (S j) quotas).
  assert (Hsplit : skipn j quotas = nth j quotas 0 :: later).
  { destruct (nth_error quotas j) as [q |] eqn:E.
    - rewrite (nth_error_nth _ _ 0 E). now apply nth_error_split.
    - apply nth_error_None in E. lia. }
  set (q := nth j quotas 0) in *.
  assert (Hqs : positive_quotas (skipn j quotas)).
  { rewrite <- (firstn_skipn j quotas) in Hq.
    now apply positive_quotas_app in Hq. }
  rewrite Hsplit in Hrun, Hqs.
  pose proof (Forall_inv Hqs) as Hq1. cbn beta in Hq1.
  pose proof (Forall_inv_tail Hqs) as Hrest.
  cbn [plan_for] in Hrun.
  destruct (plan_day meta _ st_j _ q) as [st1 | e |] eqn:Hday;
    cbn [bind] in Hrun; try discriminate.
  destruct (plan_day_row meta _ st_j st1 _ q Hday) as (text & Htext & Hw1 & _).
  destruct (plan_for_appends meta _ _ _ _ _ Hrun) as (rows & Hw & _).
  exists (strftime (St.curr_day st_j), text).
  split; [exact Hstate |]. split; [exact Hwp |]. split; [exact Hcons |].
  split.
  - rewrite Hw, Hw1, Hw_j, <- app_assoc.
    rewrite nth_error_app2 by lia.
    replace (j - List.length rows_j)%nat with 0%nat by lia. reflexivity.
  - destruct Hok as (Hb & Hib & Hc).
    assert (Hsum : sum quotas = sum (firstn j quotas) + (q + sum later)).
    { rewrite (sum_firstn_skipn j quotas), Hsplit. reflexivity. }
    pose proof (sum_positive _ Hrest) as Hnn.
    pose proof (from_cursor_index meta _ _ Hb Hib) as Hfrom.
    pose proof (total_capacity_cursor meta (St.b st_j)) as Htot.
    rewrite Hfrom in Htot |- *.
    destruct (text_segments meta Hpos _ _ _ (St.curr_chapter st_j) q
                Hb Hfrom Hc ltac:(lia)) as (Htext' & Hunits & _).
    { unfold consumed_at, consumed in Hcons. lia. }
    apply text_fuel_enough in Htext'. rewrite Htext in Htext'.
    injection Htext' as ->. cbn [snd]. split; [reflexivity | exact Hunits].
Qed.


End Tiling.


(** ** The plan outside its contract *)

(** A cursor that points at an existing unit has not consumed everything. *)
Lemma cursor_ok_below {date : Type} (meta : list book) (st : St.t date) :
  positive_capacities meta -> cursor_ok meta st ->
  consumed_at meta st < total_capacity meta.
Proof.
  intros Hpos (Hb & Hi & Hc).
  pose proof (from_cursor_index meta _ _ Hb Hi) as Hfrom.
  pose proof (total_capacity_cursor meta (St.b st)) as Htot.
  assert (Hnn : 0 <= total_capacity (from_cursor meta (St.b st + 1))).
  { apply total_capacity_nonneg. now apply positive_from_cursor. }
  rewrite Hfrom, total_capacity_cons in Htot.
  unfold consumed_at, consumed. lia.
Qed.

(** The cursor loop runs off the end of the sequence when no unit is left
    for the cursor to point at. *)
Lemma advance_while_overrun (meta : list book) :
  positive_capacities meta ->
  forall (tl : list book) (b : Z) (cb : book) (c : Z) (fuel : nat),
    0 <= b ->
    from_cursor meta b = cb :: tl ->
    total_capacity (cb :: tl) <= c - 1 ->
    (List.length tl < fuel)%nat ->
    advance_while fuel meta b cb c = Raise IndexError.
Proof.
  intros Hpos tl.
  induction tl as [|cb' tl IH]; intros b cb c fuel Hb Hfrom Hover Hfuel;
    (destruct fuel as [|fuel]; [cbn in Hfuel; lia |]);
    pose proof (from_cursor_next meta b cb _ Hb Hfrom) as Hnext;
    rewrite total_capacity_cons in Hover; cbn [advance_while].
  - change (total_capacity []) with 0 in Hover.
    replace (c >? chapters cb) with true by lia.
    now rewrite (index_past_end meta (b + 1)) by (assumption || lia).
  - assert (Hnn : 0 <= total_capacity (cb' :: tl)).
    { apply total_capacity_nonneg. rewrite <- Hnext.
      now apply positive_from_cursor. }
    replace (c >? chapters cb) with true by lia.
    rewrite (index_from_cursor meta (b + 1) cb' tl) by (assumption || lia).
    cbn [bind]. apply IH; try assumption; try lia.
    cbn [List.length] in Hfuel. lia.
Qed.

Section Overrun.

Context {date : Type} `{DateLike date}.

Lemma plan_for_overrun (meta : list book) (len : Z) :
  positive_capacities meta ->
  forall (days : list Z) (st : St.t date) (i : Z),
    cursor_ok meta st ->
    positive_quotas days ->
    i + Z.of_nat (List.length days) = len ->
    total_capacity meta < consumed_at meta st + sum days ->
    plan_for meta len st i days = Raise IndexError.
Proof.
  intros Hpos days.
  induction days as [|day rest IH]; intros st i Hok Hq Hlen Hover.
  - pose proof (cursor_ok_below meta st Hpos Hok).
    change (sum []) with 0 in Hover. lia.
  - pose proof (Forall_inv Hq) as Hday. cbn beta in Hday.
    pose proof (Forall_inv_tail Hq) as Hrest.
    change (sum (day :: rest)) with (day + sum rest) in Hover.
    cbn [List.length] in Hlen. cbn [plan_for].
    destruct Hok as (Hb & Hi & Hc).
    destruct (Z.lt_ge_cases (total_capacity meta) (consumed_at meta st + day))
      as [Hnow | Hlater].
    + unfold plan_day, get_day_reading_text.
      rewrite (text_overrun meta Hpos _ (St.b st) (St.curr_book st)
                 (St.curr_chapter st) day (depth_bound meta (St.b st)) Hb
                 (from_cursor_index meta _ _ Hb Hi)); [reflexivity | lia | |].
      * pose proof (total_capacity_cursor meta (St.b st)) as Htot.
        rewrite (from_cursor_index meta _ _ Hb Hi) in Htot.
        unfold consumed_at, consumed in Hnow. lia.
      * rewrite (depth_bound_from_cursor meta _ Hb),
          (from_cursor_index meta _ _ Hb Hi). cbn. lia.
    + destruct rest as [|day' rest'].
      { change (sum []) with 0 in Hover. lia. }
      assert (Hi_not_last : (i =? len - 1) = false)
        by (cbn [List.length] in Hlen; lia).
      destruct (Z.eq_dec (consumed_at meta st + day) (total_capacity meta))
        as [Hfull | Hroom].
      * unfold plan_day.
        destruct (valid_call_returns meta (St.b st) (St.curr_chapter st) day
                    Hpos) as [text Htext].
        { split; [assumption |]. exists (St.curr_book st).
          unfold consumed_at in Hlater. repeat split; try assumption; lia. }
        rewrite Htext. cbn [bind]. rewrite Hi_not_last. cbn [negb].
        rewrite (advance_while_overrun meta Hpos _ (St.b st) (St.curr_book st)
                   _ _ Hb (from_cursor_index meta _ _ Hb Hi)); [reflexivity | |].
        -- pose proof (total_capacity_cursor meta (St.b st)) as Htot.
           rewrite (from_cursor_index meta _ _ Hb Hi) in Htot.
           unfold consumed_at, consumed in Hfull. lia.
        -- rewrite (depth_bound_from_cursor meta _ Hb),
             (from_cursor_index meta _ _ Hb Hi). cbn. lia.
      * destruct (plan_day_ok meta len st i day Hpos (conj Hb (conj Hi Hc))
                    ltac:(lia))
          as (st1 & Hrun & Hok1 & _ & Hcons1).
        { rewrite Hi_not_last. lia. }
        rewrite Hrun. cbn [bind]. rewrite Hi_not_last in Hcons1.
        apply IH; try assumption; [lia |].
        rewrite Hcons1. lia.
Qed.

(** X5. Schedule overrun: for containers of positive capacity and positive
    quotas whose sum is more than the capacity, the rendering returns no
    rows; it raises [IndexError]. *)
Theorem plan_overrun (meta : list book) (quotas : list Z) (start : date) :
  meta <> [] -> positive_capacities meta -> positive_quotas quotas ->
  total_capacity meta < sum quotas ->
  write_plan meta quotas start = Raise IndexError.
Proof.
  intros Hne Hpos Hq Hover.
  destruct (start_state_ok meta start Hne Hpos) as (bk & Hi & Hok & Hcons).
  unfold write_plan. rewrite Hi. cbn [bind].
  apply plan_for_overrun; try assumption; lia.
Qed.

End Overrun.

Lemma plan_overrun_witness :
  write_plan alpha_beta [4; 2; 3] (Gregorian.Date 2021 1 1) = Raise IndexError.
Proof.
  apply (plan_overrun alpha_beta [4; 2; 3] (Gregorian.Date 2021 1 1)).
  - discriminate.
  - repeat constructor.
  - repeat constructor.
  - vm_compute. reflexivity.
Defined.

(** ** Quotas and degenerate plans *)

(** The quotas of a feasible partition. *)
Lemma split_quotas (total parts : Z) :
  1 <= parts -> parts <= total ->
  exists l, split total parts = Ok l
            /\ sum l = total
            /\ Z.of_nat (List.length l) = parts
            /\ positive_quotas l.
Proof.
  intros Hn Hx.
  pose proof (Z.div_mod total parts ltac:(lia)) as Hdm.
  assert (Hbase : 1 <= total / parts)
    by (apply Z.div_le_lower_bound; lia).
  destruct (Z.eq_dec (total mod parts) 0) as [Hr | Hr].
  - exists (repeat (total / parts) (Z.to_nat parts)).
    split; [now apply split_even |].
    rewrite sum_repeat, repeat_length, Z2Nat.id by lia.
    split; [lia |]. split; [reflexivity |]. apply Forall_repeat. lia.
  - eexists. split; [now apply split_uneven |].
    destruct (uneven_counts total parts Hn Hr)
      as (Hrn & Hg & Hhi & Hlo & Hhi1 & Hlo1 & Hgr).
    set (r := total mod parts) in *. set (g := Z.gcd r (parts - r)) in *.
    destruct (block_facts (r / g) ((parts - r) / g) (total / parts))
      as (Hsum & Hlen & _ & Hall); [lia | lia |].
    rewrite sum_concat_repeat, length_concat_repeat, Hsum, Z2Nat.id by lia.
    split; [nia |]. split; [nia |].
    apply Forall_concat_repeat. eapply Forall_impl; [| exact Hall].
    cbn. lia.
Qed.

(** The quotas that [generate_plan] works with, for a duration that is not
    positive. *)
Lemma quotas_nonpositive_duration (chapters duration : Z) :
  duration <= 0 ->
  chapters_per_day_of chapters duration
  = (if (duration =? 0) && (0 <=? chapters) then Raise ZeroDivisionError
     else Ok []).
Proof.
  intros Hd. unfold chapters_per_day_of. rewrite split_no_parts by assumption.
  destruct (Z.ltb_spec chapters duration) as [Hlt | Hge].
  - replace ((duration =? 0) && (0 <=? chapters)) with false
      by (symmetry; apply andb_false_iff; lia).
    unfold range. now replace (Z.to_nat chapters) with 0%nat by lia.
  - destruct (Z.eqb_spec duration 0) as [-> | Hne].
    + now replace (0 <=? chapters) with true by lia.
    + reflexivity.
Qed.

(** The quotas are computed unless the duration is zero and the units are
    not negative. *)
Lemma quotas_cases (chapters duration : Z) :
  (duration = 0 /\ 0 <= chapters
   /\ chapters_per_day_of chapters duration = Raise ZeroDivisionError)
  \/ (~ (duration = 0 /\ 0 <= chapters)
      /\ exists l, chapters_per_day_of chapters duration = Ok l).
Proof.
  destruct (Z.le_gt_cases duration 0) as [Hd | Hd].
  - rewrite (quotas_nonpositive_duration chapters duration Hd).
    destruct (Z.eqb_spec duration 0) as [-> | Hne];
      [destruct (Z.leb_spec 0 chapters) |]; cbn [andb].
    + left. auto.
    + right. split; [lia | eauto].
    + right. split; [lia | eauto].
  - right. split; [lia |]. unfold chapters_per_day_of.
    destruct (Z.lt_ge_cases chapters duration) as [Hlt | Hge].
    + rewrite (proj2 (split_raises_iff chapters duration ltac:(lia)) Hlt).
      eauto.
    + destruct (split_quotas chapters duration ltac:(lia) Hge) as (l & -> & _).
      eauto.
Qed.

Section Degenerate.

Context {date : Type} `{DateLike date}.

(** X6. A duration that is not positive, within the range where the
    float division of [split] is exact: with zero days and a number of
    units that is not negative, the division by zero of [split] is not
    caught by the fallback and [generate_plan] raises it; otherwise (a
    negative duration, or zero days for a negative number of units) the
    plan is returned with no rows at all. *)
Theorem generate_plan_nonpositive_duration (meta : list book)
    (duration : Z) (start : date) (chapters : Z) (write : bool) :
  - exact_int_bound <= duration -> duration <= 0 -> meta <> [] ->
  generate_plan meta duration start chapters write
  = (if (duration =? 0) && (0 <=? chapters) then Raise ZeroDivisionError
     else Ok (if write then WrittenToFile [] else CsvText [])).
Proof.
  intros _ Hd Hne. unfold generate_plan.
  rewrite (quotas_nonpositive_duration chapters duration Hd).
  destruct ((duration =? 0) && (0 <=? chapters)); [reflexivity |].
  cbn [bind]. destruct meta as [|bk tl]; [congruence |].
  cbn. now destruct write.
Qed.

(** X7. An empty container sequence is not rejected before the plan is
    built: for a duration within the range where the float division of
    [split] is exact, once the quotas are computed the first lookup
    raises [IndexError]; only the division by zero of a zero duration
    comes before it. *)
Theorem generate_plan_empty_meta (duration : Z) (start : date)
    (chapters : Z) (write : bool) :
  - exact_int_bound <= duration <= exact_int_bound ->
  generate_plan [] duration start chapters write
  = (if (duration =? 0) && (0 <=? chapters) then Raise ZeroDivisionError
     else Raise IndexError).
Proof.
  intros _. unfold generate_plan.
  destruct (quotas_cases chapters duration)
    as [(-> & Hc & ->) | (Hnot & l & ->)].
  - now replace (0 <=? chapters) with true by lia.
  - replace ((duration =? 0) && (0 <=? chapters)) with false; [reflexivity |].
    symmetry. apply andb_false_iff. lia.
Qed.

End Degenerate.

Lemma generate_plan_nonpositive_duration_witness :
  generate_plan alpha_beta (-3) (Gregorian.Date 2021 1 1) 8 false
  = Ok (CsvText [])
  /\ generate_plan alpha_beta 0 (Gregorian.Date 2021 1 1) 8 false
     = Raise ZeroDivisionError.
Proof.
  split.
  - exact (generate_plan_nonpositive_duration alpha_beta (-3)
             (Gregorian.Date 2021 1 1) 8 false
             ltac:(vm_compute; discriminate) ltac:(lia) ltac:(discriminate)).
  - exact (generate_plan_nonpositive_duration alpha_beta 0
             (Gregorian.Date 2021 1 1) 8 false
             ltac:(vm_compute; discriminate) ltac:(lia) ltac:(discriminate)).
Defined.

Lemma generate_plan_empty_meta_witness :
  generate_plan [] 3 (Gregorian.Date 2021 1 1) 8 false = Raise IndexError
  /\ generate_plan [] 0 (Gregorian.Date 2021 1 1) 8 false
     = Raise ZeroDivisionError.
Proof.
  split.
  - apply (generate_plan_empty_meta 3 (Gregorian.Date 2021 1 1) 8 false).
    split; vm_compute; discriminate.
  - apply (generate_plan_empty_meta 0 (Gregorian.Date 2021 1 1) 8 false).
    split; vm_compute; discriminate.
Defined.

(** ** The whole plan *)

Lemma last_app_nonempty {A : Type} (l1 l2 : list A) (d : A) :
  l2 <> [] -> last (l1 ++ l2) d = last l2 d.
Proof.
  intros Hne. induction l1 as [|a l1 IH]; [reflexivity |].
  cbn [app]. destruct (l1 ++ l2) eqn:E.
  - apply app_eq_nil in E. destruct E. contradiction.
  - rewrite <- E in *. cbn [last]. rewrite E. rewrite <- E. exact IH.
Qed.

Lemma last_any_default {A : Type} (l : list A) (d d' : A) :
  l <> [] -> last l d = last l d'.
Proof.
  induction l as [|a l IH]; [congruence |]. intros _.
  destruct l as [|a' l]; [reflexivity |].
  change (last (a' :: l) d = last (a' :: l) d'). apply IH. discriminate.
Qed.

Lemma last_from_cursor (meta : list book) (b : Z) (bk d : book)
    (tl : list book) :
  from_cursor meta b = bk :: tl -> last (bk :: tl) d = last meta d.
Proof.
  intros Hfrom. rewrite <- (firstn_skipn (Z.to_nat b) meta) at 1.
  unfold from_cursor in Hfrom. rewrite Hfrom.
  symmetry. apply last_app_nonempty. discriminate.
Qed.

(** A quota that uses up the capacity ends at the last unit of the last
    container. *)
Lemma day_segments_reach_end (tl : list book) :
  forall (bk : book) (c day : Z) (d : book * Z * Z),
    positive_capacities (bk :: tl) ->
    1 <= c <= chapters bk -> 1 <= day ->
    c - 1 + day = total_capacity (bk :: tl) ->
    exists p, last (day_segments (bk :: tl) c day) d
              = (last (bk :: tl) bk, p, chapters (last (bk :: tl) bk)).
Proof.
  induction tl as [|bk' tl IH]; intros bk c day d Hpos Hc Hday Hfull;
    rewrite total_capacity_cons in Hfull.
  - change (total_capacity []) with 0 in Hfull.
    rewrite day_segments_within by lia. exists c. cbn [last].
    f_equal. lia.
  - pose proof (Forall_inv_tail Hpos) as Hpos'.
    pose proof (Forall_inv Hpos') as Hbk'. cbn beta in Hbk'.
    pose proof (total_capacity_nonneg _ (Forall_inv_tail Hpos')) as Hnn.
    pose proof (total_capacity_cons bk' tl) as Hcons.
    rewrite day_segments_rollover by lia.
    destruct (IH bk' 1 (day - (chapters bk - c) - 1) d Hpos')
      as [p Hp]; try lia.
    exists p.
    change (last (bk :: bk' :: tl) bk) with (last (bk' :: tl) bk).
    rewrite (last_any_default (bk' :: tl) bk bk') by discriminate.
    destruct (day_segments (bk' :: tl) 1 (day - (chapters bk - c) - 1))
      as [|s segs] eqn:E.
    + cbn [day_segments] in E.
      destruct (1 + (day - (chapters bk - c) - 1) - 1 <=? chapters bk');
        discriminate.
    + exact Hp.
Qed.

Section WholePlan.

Context {date : Type} `{DateLike date}.

(** X8. A plan whose quotas add up to the capacity reads everything: the
    first row starts at unit 1 of the first container, and the last row
    ends at the last unit of the last container. *)
Theorem plan_covers_all (meta : list book) (quotas : list Z) (start : date)
    (d : book) :
  renderable meta quotas ->
  sum quotas = total_capacity meta ->
  exists st first_row last_row,
    write_plan meta quotas start = Ok st
    /\ nth_error (St.w st) 0 = Some first_row
    /\ (exists q rest,
           snd first_row = join_segments ((hd d meta, 1, q) :: rest))
    /\ nth_error (St.w st) (List.length quotas - 1) = Some last_row
    /\ (exists segs p,
           snd last_row = join_segments segs
           /\ last segs (d, 0, 0)
              = (last meta d, p, chapters (last meta d))).
Proof.
  intros Hr Hfull.
  assert (Hlen : (0 < List.length quotas)%nat).
  { destruct Hr as (_ & _ & Hq & _). destruct quotas; [congruence | cbn; lia]. }
  destruct (plan_row_at meta quotas start 0 Hr Hlen)
    as (st0 & st & r0 & Hst0 & Hwp & _ & Hr0 & Htext0 & _).
  destruct (plan_row_at meta quotas start (List.length quotas - 1) Hr
              ltac:(lia))
    as (stl & st' & rl & Hstl & Hwp' & Hconsl & Hrl & Htextl & Hunits).
  rewrite Hwp in Hwp'. injection Hwp' as <-.
  exists st, r0, rl.
  split; [exact Hwp |]. split; [exact Hr0 |]. split; [| split; [exact Hrl |]].
  - destruct Hr as (Hne & Hpos & _).
    destruct meta as [|bk tl]; [congruence |].
    unfold state_before_day in Hst0. cbn in Hst0. injection Hst0 as <-.
    cbn [St.b St.curr_chapter hd] in *.
    change (from_cursor (bk :: tl) 0) with (bk :: tl) in Htext0.
    cbn [day_segments] in Htext0.
    destruct (1 + nth 0 quotas 0 - 1 <=? chapters bk); eauto.
  - destruct (state_before_day_ok meta quotas start (List.length quotas - 1) Hr
                ltac:(lia))
      as (bk & stl' & Hi & Hrun & Hok & _).
    assert (stl' = stl).
    { unfold state_before_day in Hstl. rewrite Hi in Hstl. cbn [bind] in Hstl.
      congruence. }
    subst stl'.
    destruct Hr as (Hne & Hpos & _ & Hq & _).
    destruct Hok as (Hb & Hib & Hc).
    set (j := (List.length quotas - 1)%nat) in *.
    set (q := nth j quotas 0) in *.
    assert (Hsplit : skipn j quotas = [q]).
    { destruct (nth_error quotas j) as [q' |] eqn:E.
      - destruct (nth_error_split _ _ _ E) as [Hs _].
        rewrite Hs, skipn_all2 by (subst j; lia).
        subst q. now rewrite (nth_error_nth _ _ 0 E).
      - apply nth_error_None in E. subst j. lia. }
    assert (Hq1 : 0 < q).
    { rewrite <- (firstn_skipn j quotas) in Hq.
      apply positive_quotas_app in Hq. destruct Hq as [_ Hq].
      rewrite Hsplit in Hq. exact (Forall_inv Hq). }
    assert (Hsum : sum quotas = sum (firstn j quotas) + q).
    { rewrite (sum_firstn_skipn j quotas), Hsplit. cbn. lia. }
    pose proof (from_cursor_index meta _ _ Hb Hib) as Hfrom.
    pose proof (total_capacity_cursor meta (St.b stl)) as Htot.
    rewrite Hfrom in Htot, Htextl.
    destruct (day_segments_reach_end (from_cursor meta (St.b stl + 1))
                (St.curr_book stl) (St.curr_chapter stl) q (d, 0, 0))
      as [p Hp]; try assumption; try lia.
    { rewrite <- Hfrom. now apply positive_from_cursor. }
    { unfold consumed_at, consumed in Hconsl. lia. }
    eexists _, p. split; [exact Htextl |].
    rewrite Hp, (last_from_cursor meta _ _ (St.curr_book stl) _ Hfrom).
    now rewrite (last_any_default meta (St.curr_book stl) d).
Qed.

End WholePlan.

Lemma plan_covers_all_witness :
  exists st first_row last_row,
    write_plan alpha_beta [4; 2; 2] (Gregorian.Date 2021 1 1) = Ok st
    /\ nth_error (St.w st) 0 = Some first_row
    /\ (exists q rest,
           snd first_row
           = join_segments ((hd (Book "" 0 0) alpha_beta, 1, q) :: rest))
    /\ nth_error (St.w st) (List.length [4; 2; 2] - 1) = Some last_row
    /\ (exists segs p,
           snd last_row = join_segments segs
           /\ last segs (Book "" 0 0, 0, 0)
              = (last alpha_beta (Book "" 0 0), p,
                 chapters (last alpha_beta (Book "" 0 0)))).
Proof.
  apply (plan_covers_all alpha_beta [4; 2; 2] (Gregorian.Date 2021 1 1)
           (Book "" 0 0)).
  - unfold renderable.
    split; [discriminate |]. split; [repeat constructor |].
    split; [discriminate |]. split; [repeat constructor |].
    vm_compute. discriminate.
  - reflexivity.
Defined.

(** ** [process_meta] *)

Lemma count_totals_sums (meta : list book) :
  count_totals meta = (total_capacity meta, sum (List.map verses meta)).
Proof.
  unfold count_totals.
  assert (Hgen : forall l a v,
             fold_left (fun '(tc, tv) bk => (tc + chapters bk, tv + verses bk))
                       l (a, v)
             = (a + total_capacity l, v + sum (List.map verses l))).
  { induction l as [|bk l IH]; intros a v.
    - cbn. f_equal; lia.
    - cbn [fold_left]. rewrite IH, total_capacity_cons.
      cbn [List.map]. change (sum (verses bk :: List.map verses l))
        with (verses bk + sum (List.map verses l)).
      f_equal; lia. }
  now rewrite Hgen.
Qed.

Section ProcessMeta.

Context {date F : Type} `{DateLike date} `{TrueDiv F}.

(** X9. [process_meta] keeps the contract of the renderer by itself: it
    hands [generate_plan] the sum of the capacities as the total, so for a
    non-empty sequence of containers of positive capacity and a positive
    duration the plan is produced, never an overrun; its quotas add up to
    the capacity, and it has [duration] rows, or one row per unit when
    there are fewer units than days.  The totals are taken within the
    range of a float, so that the two averages are computed, and the
    duration within the range where the float division of [split] is
    exact. *)
Theorem process_meta_plan (meta : list book) (write : bool)
    (config : Config.t date) (duration : Z) (start : date) :
  Config.duration config = Some duration ->
  Config.start config = Some start ->
  meta <> [] -> positive_capacities meta ->
  1 <= duration <= exact_int_bound ->
  total_capacity meta < float_range_bound ->
  Z.abs (sum (List.map verses meta)) < float_range_bound ->
  exists quotas st,
    renderable meta quotas
    /\ sum quotas = total_capacity meta
    /\ Z.of_nat (List.length quotas) = Z.min duration (total_capacity meta)
    /\ write_plan meta quotas start = Ok st
    /\ List.length (St.w st) = List.length quotas
    /\ process_meta meta write config
       = Ok (Processed.Make
               (total_capacity meta) (sum (List.map verses meta))
               (Some (true_quotient (total_capacity meta) duration))
               (Some (true_quotient (sum (List.map verses meta)) duration))
               (Some (if write then WrittenToFile (St.w st)
                      else CsvText (St.w st)))).
Proof.
  intros Hdur Hstart Hne Hpos [Hd _] _ _.
  assert (Htotal : 1 <= total_capacity meta).
  { destruct meta as [|bk tl]; [congruence |].
    rewrite total_capacity_cons.
    pose proof (Forall_inv Hpos) as Hbk. cbn beta in Hbk.
    pose proof (total_capacity_nonneg _ (Forall_inv_tail Hpos)). lia. }
  assert (Hquotas : exists quotas,
             chapters_per_day_of (total_capacity meta) duration = Ok quotas
             /\ sum quotas = total_capacity meta
             /\ Z.of_nat (List.length quotas)
                = Z.min duration (total_capacity meta)
             /\ positive_quotas quotas).
  { unfold chapters_per_day_of.
    destruct (Z.lt_ge_cases (total_capacity meta) duration) as [Hlt | Hge].
    - rewrite (proj2 (split_raises_iff _ duration Hd) Hlt).
      unfold range. rewrite map_const_repeat, length_map, length_seq.
      eexists. split; [reflexivity |].
      rewrite sum_repeat, repeat_length.
      split; [lia |]. split; [lia |]. apply Forall_repeat. lia.
    - destruct (split_quotas _ duration Hd Hge) as (l & -> & Hs & Hl & Hq).
      exists l. repeat split; try assumption. lia. }
  destruct Hquotas as (quotas & Hcpd & Hsum & Hlen & Hq).
  destruct (write_plan_ok meta quotas start Hne Hpos Hq ltac:(lia))
    as (st & Hwp & _ & Hrows).
  exists quotas, st.
  split.
  { unfold renderable. repeat split; try assumption; try lia.
    intros ->. cbn in Hlen. lia. }
  split; [exact Hsum |]. split; [exact Hlen |]. split; [exact Hwp |].
  split; [symmetry; eapply Forall2_length; eassumption |].
  unfold process_meta. rewrite count_totals_sums, Hdur, Hstart.
  unfold truediv. replace (duration =? 0) with false by lia. cbn [bind].
  unfold generate_plan. rewrite Hcpd. cbn [bind]. rewrite Hwp. cbn [bind].
  now destruct write.
Qed.

End ProcessMeta.

Lemma process_meta_plan_witness :
  exists quotas st,
    renderable alpha_beta quotas
    /\ sum quotas = total_capacity alpha_beta
    /\ Z.of_nat (List.length quotas) = Z.min 3 (total_capacity alpha_beta)
    /\ write_plan alpha_beta quotas (Gregorian.Date 2021 1 1) = Ok st
    /\ List.length (St.w st) = List.length quotas
    /\ process_meta alpha_beta false
         (Config.Make None (Some 3) (Some (Gregorian.Date 2021 1 1)))
       = Ok (Processed.Make
               (total_capacity alpha_beta) (sum (List.map verses alpha_beta))
               (Some (total_capacity alpha_beta, 3))
               (Some (sum (List.map verses alpha_beta), 3))
               (Some (CsvText (St.w st)))).
Proof.
  apply (process_meta_plan (F := Z * Z) alpha_beta false
           (Config.Make None (Some 3) (Some (Gregorian.Date 2021 1 1)))
           3 (Gregorian.Date 2021 1 1)).
  - reflexivity.
  - reflexivity.
  - discriminate.
  - repeat constructor.
  - split; [lia | vm_compute; discriminate].
  - vm_compute. reflexivity.
  - vm_compute. reflexivity.
Defined.

(** ** The selection of the books *)

Lemma name_requested_In (names : list string) (d : catalog_book) :
  name_requested names d = true <-> In (cat_name d) names.
Proof.
  unfold name_requested. rewrite existsb_exists. split.
  - intros (n & Hn & Heq). apply String.eqb_eq in Heq. now subst.
  - intros Hin. exists (cat_name d). split; [assumption |].
    apply String.eqb_refl.
Qed.

Lemma filter_selection (names : list string) (books : list catalog_book) :
  selection names books (List.filter (name_requested names) books).
Proof.
  induction books as [|d books IH]; [constructor |].
  cbn [List.filter]. destruct (name_requested names d) eqn:E.
  - apply SelectionKeep; [now apply name_requested_In | exact IH].
  - apply SelectionSkip; [| exact IH].
    intros Hin. apply name_requested_In in Hin. congruence.
Qed.

Lemma selection_unique (names : list string) (books s1 s2 : list catalog_book) :
  selection names books s1 -> selection names books s2 -> s1 = s2.
Proof.
  intros H1. revert s2.
  induction H1 as [| d books s1 Hin _ IH | d books s1 Hout _ IH];
    intros s2 H2; inversion H2; subst; try contradiction.
  - reflexivity.
  - f_equal. now apply IH.
  - now apply IH.
Qed.

(** X10. The books that [request_metadata] processes are exactly what a
    walk along the catalog gives that keeps an entry when its name is
    requested and leaves it out when it is not: the entries stay in the
    order of the catalog, each as often as the catalog has it, and no
    other list is such a selection.  The order of the requested names and
    their repetitions do not matter: two requests that name the same
    books select the same list; a requested name that the catalog does
    not have is dropped without an error. *)
Theorem select_books_by_name {date : Type} (config : Config.t date)
    (names : list string) (books : list catalog_book) :
  Config.books config = Some names ->
  exists selected,
    select_books config books = Ok selected
    /\ selection names books selected
    /\ (forall selected', selection names books selected' ->
                          selected' = selected)
    /\ (forall names',
           (forall n, In n names <-> In n names') ->
           select_books
             (Config.Make (Some names') (Config.duration config)
                          (Config.start config)) books
           = Ok selected).
Proof.
  intros Hbooks. unfold select_books. rewrite Hbooks.
  exists (List.filter (name_requested names) books).
  split; [reflexivity |]. split; [| split].
  - apply filter_selection.
  - intros selected' Hsel.
    exact (selection_unique names books _ _ Hsel (filter_selection names books)).
  - intros names' Hsame. cbn [Config.books]. f_equal.
    apply filter_ext. intros d.
    apply eq_true_iff_eq. rewrite !name_requested_In. symmetry. apply Hsame.
Qed.

Lemma select_books_by_name_witness :
  exists selected,
    select_books
      (Config.Make (Some ["Exodus"; "Genesis"; "Enoch"; "Exodus"])
                   (Some 3) (Some (Gregorian.Date 2021 1 1)))
      [CatalogBook "Genesis" "GEN"; CatalogBook "Exodus" "EXO";
       CatalogBook "Leviticus" "LEV"]
    = Ok selected
    /\ selected = [CatalogBook "Genesis" "GEN"; CatalogBook "Exodus" "EXO"].
Proof.
  destruct (select_books_by_name
              (Config.Make (Some ["Exodus"; "Genesis"; "Enoch"; "Exodus"])
                           (Some 3) (Some (Gregorian.Date 2021 1 1)))
              ["Exodus"; "Genesis"; "Enoch"; "Exodus"]
              [CatalogBook "Genesis" "GEN"; CatalogBook "Exodus" "EXO";
               CatalogBook "Leviticus" "LEV"] eq_refl)
    as (selected & Hsel & _).
  exists selected. split; [exact Hsel |].
  vm_compute in Hsel. now injection Hsel.
Defined.

(** ** More days than units *)

Section Fallback2.

Context {date : Type} `{DateLike date}.

(** X11. Asking for more days than there are units gives the plan of
    exactly as many days as units: the fallback of [generate_plan] and
    the partition of [chapters] into [chapters] parts are the same
    quotas. *)
Theorem more_days_than_units (meta : list book) (duration : Z) (start : date)
    (chapters : Z) (write : bool) :
  1 <= chapters -> chapters < duration ->
  generate_plan meta duration start chapters write
  = generate_plan meta chapters start chapters write.
Proof.
  intros Hc Hd. unfold generate_plan, chapters_per_day_of.
  rewrite (proj2 (split_raises_iff chapters duration ltac:(lia)) Hd).
  rewrite (split_even chapters chapters Hc ltac:(lia))
    by (apply Z.mod_same; lia).
  rewrite Z.div_same by lia.
  unfold range. now rewrite map_const_repeat, length_map, length_seq.
Qed.

End Fallback2.

Lemma more_days_than_units_witness :
  generate_plan alpha_beta 30 (Gregorian.Date 2021 1 1) 8 false
  = generate_plan alpha_beta 8 (Gregorian.Date 2021 1 1) 8 false.
Proof.
  apply (more_days_than_units alpha_beta 30 (Gregorian.Date 2021 1 1) 8 false);
    lia.
Defined.

Section Totals.

Context {date F : Type} `{DateLike date} `{TrueDiv F}.

(** X12. The totals of [process_meta]: whenever it returns, the chapters
    and the verses are the sums over the books, and a plan is there
    exactly when both the duration and the start date were given.  With
    one of the two missing it always returns, even for no book at all;
    with both given and a duration of zero it raises
    [ZeroDivisionError], whatever the books. *)
Theorem process_meta_totals (meta : list book) (write : bool)
    (config : Config.t date) :
  (forall pm,
      process_meta meta write config = Ok pm ->
      Processed.chapters pm = total_capacity meta
      /\ Processed.verses pm = sum (List.map verses meta)
      /\ (Processed.plan pm = None
          <-> Config.duration config = None \/ Config.start config = None))
  /\ (Config.duration config = None \/ Config.start config = None ->
      exists pm, process_meta meta write config = Ok pm)
  /\ (Config.duration config = Some 0 -> Config.start config <> None ->
      process_meta meta write config = Raise ZeroDivisionError).
Proof.
  unfold process_meta. rewrite count_totals_sums.
  destruct (Config.duration config) as [duration |];
    destruct (Config.start config) as [start |].
  - split; [| split].
    + intros pm Hpm.
      destruct (truediv (total_capacity meta) duration); cbn [bind] in Hpm;
        try discriminate.
      destruct (truediv (sum (List.map verses meta)) duration);
        cbn [bind] in Hpm; try discriminate.
      destruct (generate_plan meta duration start (total_capacity meta) write);
        cbn [bind] in Hpm; try discriminate.
      injection Hpm as <-. cbn. repeat split; try discriminate.
      intros [E | E]; discriminate.
    + intros [E | E]; discriminate.
    + intros E _. injection E as ->. reflexivity.
  - split; [| split].
    + intros pm Hpm. injection Hpm as <-. cbn. repeat split; auto.
    + eauto.
    + congruence.
  - split; [| split].
    + intros pm Hpm. injection Hpm as <-. cbn. repeat split; auto.
    + eauto.
    + discriminate.
  - split; [| split].
    + intros pm Hpm. injection Hpm as <-. cbn. repeat split; auto.
    + eauto.
    + discriminate.
Qed.

End Totals.
